(** * tensorshaper: axis-index arithmetic and permutation / reshape planning

    A shallow embedding of [tensorshaper.py].  Python integers are [Z],
    Python lists and shape tuples are [list Z], exceptions are an explicit
    error type, and the calls made to the backing array library
    ([lib.transpose], [lib.reshape]) are recorded in a call log. *)

From Stdlib Require Import ZArith Lia.
From stdpp Require Import base list list_numbers strings.

Local Open Scope Z_scope.

(** ** Exceptions *)

Inductive exn : Type :=
| ValueError (msg : string)
| IndexError (msg : string)
| AssertionError (msg : option string).

(** The error kinds of the specification, as the source raises them. *)
Definition InvalidRank : exn := ValueError "R is not positive".
Definition IndexOutOfBounds : exn := IndexError "Index is OOB".
Definition IdenticalAxesError : exn := AssertionError (Some "identical axes").

(** ** Computations that return or raise *)

Inductive result (A : Type) : Type :=
| Ok (a : A)
| Raise (e : exn).
Arguments Ok {A} a.
Arguments Raise {A} e.

#[global] Instance result_ret : MRet result := fun A a => Ok a.
#[global] Instance result_bind : MBind result := fun A B f m =>
  match m with
  | Ok a => f a
  | Raise e => Raise e
  end.

(** [assert(c), msg] *)
Definition py_assert (c : bool) (msg : option string) : result unit :=
  if c then Ok tt else Raise (AssertionError msg).

(** ** Python list primitives *)

Section py_list.
Context {A : Type}.

(** Index of [l[i]], [l[i] = v], [del l[i]] and [l.pop(i)]: a negative
    index counts from the end, anything outside the list is an error. *)
Definition py_index (len i : Z) : option nat :=
  let j := if i <? 0 then i + len else i in
  if (0 <=? j) && (j <? len) then Some (Z.to_nat j) else None.

(** Bound of a slice and position of [l.insert(i, x)]: a negative index
    counts from the end, and the outcome is clipped to [0, len]. *)
Definition py_clip (len i : Z) : nat :=
  let j := if i <? 0 then i + len else i in
  Z.to_nat (Z.max 0 (Z.min j len)).

Definition py_setitem (l : list A) (i : Z) (v : A) : result (list A) :=
  match py_index (Z.of_nat (length l)) i with
  | Some n => Ok (<[n:=v]> l)
  | None => Raise (IndexError "list assignment index out of range")
  end.

Definition py_delitem (l : list A) (i : Z) : result (list A) :=
  match py_index (Z.of_nat (length l)) i with
  | Some n => Ok (delete n l)
  | None => Raise (IndexError "list assignment index out of range")
  end.

(** [l.pop(i)]: the removed element and the list that is left. *)
Definition py_pop (l : list A) (i : Z) : result (A * list A) :=
  match py_index (Z.of_nat (length l)) i with
  | Some n =>
      match l !! n with
      | Some x => Ok (x, delete n l)
      | None => Raise (IndexError "pop index out of range")
      end
  | None => Raise (IndexError "pop index out of range")
  end.

(** [l.insert(i, x)] *)
Definition py_insert (l : list A) (i : Z) (x : A) : list A :=
  let n := py_clip (Z.of_nat (length l)) i in
  take n l ++ x :: drop n l.

(** [l[:hi]] and [l[lo:]] *)
Definition py_slice_to (l : list A) (hi : Z) : list A :=
  take (py_clip (Z.of_nat (length l)) hi) l.
Definition py_slice_from (l : list A) (lo : Z) : list A :=
  drop (py_clip (Z.of_nat (length l)) lo) l.

(** [del l[lo:hi]] *)
Definition py_del_slice (l : list A) (lo hi : Z) : list A :=
  let a := py_clip (Z.of_nat (length l)) lo in
  let b := py_clip (Z.of_nat (length l)) hi in
  if (a <? b)%nat then take a l ++ drop b l else l.
End py_list.

(** [list(range(r))] *)
Definition py_range (r : Z) : list Z := seqZ 0 r.

(** ** Index normalizer *)

Definition pidx (r idx : Z) : result Z :=
  if r <? 1 then Raise (ValueError "R is not positive")
  else if negb ((- r <=? idx) && (idx <=? r - 1))
       then Raise (IndexError "Index is OOB")
  else if idx <? 0 then Ok (r + idx)
  else Ok idx.

(** ** Permutation builders *)

Definition get_swapping_permutation (r idx0 idx1 : Z) : result (list Z) :=
  py_assert (0 <=? idx0) None;;
  py_assert (0 <=? idx1) None;;
  let permute := py_range r in
  permute ← py_setitem permute idx0 idx1;
  permute ← py_setitem permute idx1 idx0;
  Ok permute.

Definition get_popinsert_permutation (r idx0 idx1 : Z) : result (list Z) :=
  idx0 ← pidx r idx0;
  idx1 ← pidx r idx1;
  let permute := py_range r in
  '(x, permute) ← py_pop permute idx0;
  Ok (py_insert permute idx1 x).

(** ** Arrays and the backing library

    The algebra never reads the elements of an array: it queries its shape
    and hands a permutation or a shape to the library.  An array is
    therefore represented by its shape.  The library ([lib], numpy or
    tensorflow) is external to the module; [transpose_shape] and
    [reshape_shape] below give the shape of what its two primitives return,
    as numpy computes it. *)

Record array : Type := Array { np_tf_get_shape : list Z }.

Definition rank (inp : array) : Z := Z.of_nat (length (np_tf_get_shape inp)).

(** Product of the entries of a shape: the number of elements. *)
Definition size_of (s : list Z) : Z := foldr Z.mul 1 s.

(** Entry [k] of a one-dimensional array: a negative index counts from the
    end, an index outside the array is an error. *)
Definition np_getitem (s : list Z) (k : Z) : result Z :=
  match py_index (Z.of_nat (length s)) k with
  | Some n =>
      match s !! n with
      | Some x => Ok x
      | None => Raise (IndexError "index is out of bounds for axis 0")
      end
  | None => Raise (IndexError "index is out of bounds for axis 0")
  end.

(** [np.asarray(s)[idxs].tolist()]: gather the entries of [s] at [idxs]. *)
Fixpoint np_take (s : list Z) (idxs : list Z) : result (list Z) :=
  match idxs with
  | [] => Ok []
  | k :: ks =>
      x ← np_getitem s k;
      xs ← np_take s ks;
      Ok (x :: xs)
  end.

(** A transpose accepts a bijection on the axes [0 .. r-1]. *)
Definition is_axes_permutation (r : Z) (perm : list Z) : bool :=
  (Z.of_nat (length perm) =? r)
  && forallb (fun k => (0 <=? k) && (k <? r)) perm
  && forallb (fun k => existsb (Z.eqb k) perm) (seqZ 0 r).

(** Shape of [lib.transpose(arr, perm)]: axis [i] of the output is axis
    [perm[i]] of the input. *)
Definition transpose_shape (arr : array) (perm : list Z) : result array :=
  if is_axes_permutation (rank arr) perm
  then s ← np_take (np_tf_get_shape arr) perm; Ok (Array s)
  else Raise (ValueError "axes don't match array").

(** The reshape wildcard. *)
Definition wildcard : Z := -1.

(** Replace the wildcard entries of a shape by [v]. *)
Definition fill_wildcard (v : Z) (s : list Z) : list Z :=
  (fun d => if d =? wildcard then v else d) <$> s.

(** Shape of [lib.reshape(arr, newshape)]: at most one wildcard, inferred
    as the number of elements divided by the product of the other entries;
    the number of elements is kept. *)
Definition reshape_shape (arr : array) (newshape : list Z) : result array :=
  let total := size_of (np_tf_get_shape arr) in
  let known := filter (fun d => d ≠ wildcard) newshape in
  if negb (forallb (fun d => 0 <=? d) known)
  then Raise (ValueError "negative dimensions not allowed")
  else
    match (length newshape - length known)%nat with
    | O =>
        if size_of known =? total then Ok (Array newshape)
        else Raise (ValueError "cannot reshape array")
    | S O =>
        if negb (size_of known =? 0) && (total mod size_of known =? 0)
        then Ok (Array (fill_wildcard (total / size_of known) newshape))
        else Raise (ValueError "cannot reshape array")
    | _ => Raise (ValueError "can only specify one unknown dimension")
    end.

(** ** Programs that call the library

    A program threads the log of library calls made so far and returns a
    value or raises; an error leaves the log as it was when it was raised. *)

Inductive call : Type :=
| Transpose (arr : array) (perm : list Z)
| Reshape (arr : array) (newshape : list Z).

Definition prog (A : Type) : Type := list call -> result A * list call.

#[global] Instance prog_ret : MRet prog := fun A a log => (Ok a, log).
#[global] Instance prog_bind : MBind prog := fun A B f m log =>
  match m log with
  | (Ok a, log') => f a log'
  | (Raise e, log') => (Raise e, log')
  end.

(** A computation without library calls, inside a program. *)
Definition pure {A : Type} (m : result A) : prog A := fun log => (m, log).

Definition lib_transpose (arr : array) (perm : list Z) : prog array :=
  fun log => (transpose_shape arr perm, log ++ [Transpose arr perm]).

Definition lib_reshape (arr : array) (newshape : list Z) : prog array :=
  fun log => (reshape_shape arr newshape, log ++ [Reshape arr newshape]).

(** Run a program from an empty log. *)
Definition run {A : Type} (m : prog A) : result A * list call := m [].

(** ** Public operations *)

Definition swap_axes (arr : array) (axis0 axis1 : Z) : prog array :=
  let r := rank arr in
  axis0 ← pure (pidx r axis0);
  axis1 ← pure (pidx r axis1);
  pure (py_assert (axis0 <=? r - 1) (Some "rank oob"));;
  pure (py_assert (axis1 <=? r - 1) (Some "rank oob"));;
  permute ← pure (get_swapping_permutation r axis0 axis1);
  lib_transpose arr permute.

Definition popinsert_axes (arr : array) (axis0 axis1 : Z) : prog array :=
  let r := rank arr in
  pure (py_assert ((- r <=? axis0) && (axis0 <=? r - 1)) (Some "rank oob"));;
  pure (py_assert ((- r <=? axis1) && (axis1 <=? r - 1)) (Some "rank oob"));;
  permute ← pure (get_popinsert_permutation r axis0 axis1);
  lib_transpose arr permute.

Definition pack_to_axis (arr : array) (axis_source axis_target : Z) : prog array :=
  let r := rank arr in
  let s := np_tf_get_shape arr in
  pure (py_assert ((- r <=? axis_source) && (axis_source <=? r - 1))
          (Some "axis source oob"));;
  pure (py_assert (negb (axis_target =? axis_source)) (Some "identical axes"));;
  pure (py_assert ((- r + 1 <=? axis_target) && (axis_target <=? r - 1))
          (Some "axis target oob"));;
  let axis_target :=
    if axis_target <? 0 then r - Z.abs axis_target else axis_target in
  let fwd := axis_source <? axis_target in
  let pretarget := axis_target - Z.b2z fwd in
  cycled ← popinsert_axes arr axis_source pretarget;
  permuter ← pure (get_popinsert_permutation r axis_source pretarget);
  s_permute ← pure (np_take s permuter);
  let s_permute := py_del_slice s_permute pretarget (pretarget + 2) in
  let s_permute := py_insert s_permute pretarget (-1) in
  lib_reshape cycled s_permute.

Definition unpack_axis (arr : array) (axis_source axis1_size : Z) : prog array :=
  let r := rank arr in
  axis_source ← pure (pidx r axis_source);
  let s := np_tf_get_shape arr in
  pure (py_assert ((0 <=? axis_source) && (axis_source <=? r - 1))
          (Some "axis source oob"));;
  s ← pure (py_delitem s axis_source);
  let s_unpack :=
    py_slice_to s axis_source ++ [-1; axis1_size] ++ py_slice_from s axis_source in
  lib_reshape arr s_unpack.

Definition frontpack (arr : array) : prog array := pack_to_axis arr 0 1.
Definition frontswap (arr : array) : prog array := swap_axes arr 0 1.
Definition backpack (arr : array) : prog array := pack_to_axis arr (-2) (-1).
Definition backswap (arr : array) : prog array := swap_axes arr (-2) (-1).

(** ** Definitions used to state the properties *)

(** Injectivity and surjectivity of the normalizer on a range of raw
    indices. *)
Definition pidx_injective_on (r lo hi : Z) : Prop :=
  ∀ i j, lo ≤ i ≤ hi → lo ≤ j ≤ hi → pidx r i = pidx r j → i = j.

Definition pidx_onto (r lo hi : Z) : Prop :=
  ∀ v, 0 ≤ v ≤ r - 1 → ∃ i, lo ≤ i ≤ hi ∧ pidx r i = Ok v.

(** The cycle permutation in the words of the specification: from the
    identity sequence, remove the element at position [n0] and reinsert it
    at position [n1]. *)
Definition remove_at {A : Type} (n : nat) (l : list A) : list A :=
  take n l ++ drop (S n) l.
Definition insert_at {A : Type} (n : nat) (x : A) (l : list A) : list A :=
  take n l ++ x :: drop n l.
Definition cyclePerm_spec (r n0 n1 : Z) : list Z :=
  let ident := seqZ 0 r in
  insert_at (Z.to_nat n1) n0 (remove_at (Z.to_nat n0) ident).

(** Entry [k] of a list, for an index [k] that is in range. *)
Definition nth_Z (s : list Z) (k : Z) : Z := default 0 (s !! Z.to_nat k).

(** Composition of two permutations given as sequences:
    [(p ∘ q)[i] = p[q[i]]], the permutation of transposing by [p] and then
    by [q]. *)
Definition perm_compose (p q : list Z) : result (list Z) := np_take p q.

(** The swap permutation in the words of the specification: the identity
    sequence with the entries at positions [idx0] and [idx1] exchanged. *)
Definition swapPerm_spec (r idx0 idx1 : Z) : list Z :=
  <[Z.to_nat idx1 := idx0]> (<[Z.to_nat idx0 := idx1]> (seqZ 0 r)).

(** The transposition of [i] and [j] as a function on axes. *)
Definition swap_at (i j k : Z) : Z :=
  if k =? j then i else if k =? i then j else k.

(** The reshape target of the specification: the entry at [n] removed and
    the two entries [wildcard, innerSize] inserted at that position. *)
Definition planUnpack_spec (s : list Z) (n : nat) (innerSize : Z) : list Z :=
  insert_at n wildcard (insert_at n innerSize (remove_at n s)).

(** The values that [pack_to_axis] computes on the way: the normalized
    target, the position before the target, the permutation and the
    permuted shape. *)
Definition pack_target (r axis_target : Z) : Z :=
  if axis_target <? 0 then r + axis_target else axis_target.
Definition pack_pretarget (r axis_source axis_target : Z) : Z :=
  pack_target r axis_target - Z.b2z (axis_source <? pack_target r axis_target).
Definition pack_permuter (r axis_source axis_target : Z) : list Z :=
  cyclePerm_spec r axis_source (pack_pretarget r axis_source axis_target).
Definition pack_s_permute (arr : array) (axis_source axis_target : Z) : list Z :=
  nth_Z (np_tf_get_shape arr) <$> pack_permuter (rank arr) axis_source axis_target.

(** A program that only appends its library calls to the log it is given,
    and whose result does not depend on that log. *)
Definition log_extends {A : Type} (m : prog A) : Prop :=
  ∀ log, m log = (fst (run m), log ++ snd (run m)).

(** The cycle permutation entry by entry: the axes strictly between the
    two positions shift by one toward the vacated slot. *)
Definition cycle_at (n0 n1 i : Z) : Z :=
  if n0 <=? n1
  then if i <? n0 then i
       else if i <? n1 then i + 1
       else if i =? n1 then n0 else i
  else if i <? n1 then i
       else if i =? n1 then n0
       else if i <=? n0 then i - 1 else i.

(** * Properties *)

(** ** Index normalizer *)

Lemma pidx_in_range (r idx : Z) :
  1 ≤ r → - r ≤ idx ≤ r - 1 →
  pidx r idx = Ok (if idx <? 0 then r + idx else idx).
Proof.
  intros Hr Hidx. unfold pidx.
  destruct (Z.ltb_spec r 1); [lia|].
  destruct (Z.leb_spec (- r) idx); [|lia].
  destruct (Z.leb_spec idx (r - 1)); [|lia].
  simpl. by destruct (idx <? 0).
Qed.

Lemma pidx_Ok_inv (r idx v : Z) :
  pidx r idx = Ok v →
  1 ≤ r ∧ - r ≤ idx ≤ r - 1 ∧ 0 ≤ v ≤ r - 1 ∧
  v = (if idx <? 0 then r + idx else idx).
Proof.
  unfold pidx.
  destruct (Z.ltb_spec r 1); [done|].
  destruct (Z.leb_spec (- r) idx); simpl; [|done].
  destruct (Z.leb_spec idx (r - 1)); simpl; [|done].
  destruct (Z.ltb_spec idx 0); intros [= <-]; lia.
Qed.

(** C4, as stated, fails: on the whole range [-r, r-1] the normalizer is
    not injective, already for rank 1, where the raw indices -1 and 0 both
    denote axis 0. *)
Lemma pidx_not_bijective_rank1 : ¬ pidx_injective_on 1 (-1) 0.
Proof.
  intros Hinj. specialize (Hinj (-1) 0).
  assert (-1 = 0) by (apply Hinj; [lia | lia | reflexivity]).
  lia.
Qed.

(** C4, amended: for [r >= 1] and [idx] in [-r, r-1] the normalizer returns
    [idx] when [idx >= 0] and [r + idx] when [idx < 0]; the result lies in
    [0, r-1]; [idx] and [idx - r] have the same image when [idx >= 0]; the
    normalizer maps [-r, r-1] onto [0, r-1], two raw indices of the range
    having the same image exactly when they are equal or differ by [r], and
    it is a bijection from [0, r-1] and from [-r, -1] onto [0, r-1]. *)
Theorem pidx_normalizes (r idx : Z) :
  1 ≤ r → - r ≤ idx ≤ r - 1 →
  pidx r idx = Ok (if idx <? 0 then r + idx else idx) ∧
  (∃ v, pidx r idx = Ok v ∧ 0 ≤ v ≤ r - 1) ∧
  (0 ≤ idx → pidx r idx = pidx r (idx - r)) ∧
  pidx_onto r (- r) (r - 1) ∧
  (∀ j, - r ≤ j ≤ r - 1 →
        pidx r idx = pidx r j ↔ j = idx ∨ j = idx - r ∨ j = idx + r) ∧
  pidx_injective_on r 0 (r - 1) ∧ pidx_onto r 0 (r - 1) ∧
  pidx_injective_on r (- r) (-1) ∧ pidx_onto r (- r) (-1).
Proof.
  intros Hr Hidx. split; [by apply pidx_in_range|].
  split.
  { eexists. split; [by apply pidx_in_range|].
    destruct (Z.ltb_spec idx 0); lia. }
  split.
  { intros Hpos. rewrite !pidx_in_range by lia.
    destruct (Z.ltb_spec idx 0), (Z.ltb_spec (idx - r) 0); f_equal; lia. }
  split.
  { intros v Hv. exists v. split; [lia|].
    rewrite pidx_in_range by lia. destruct (Z.ltb_spec v 0); [lia|done]. }
  split.
  { intros j Hj. rewrite !pidx_in_range by lia.
    destruct (Z.ltb_spec idx 0), (Z.ltb_spec j 0);
      (split; [intros [= Heq]; lia | intros Hcase; f_equal; lia]). }
  split.
  { intros i j Hi Hj. rewrite !pidx_in_range by lia.
    destruct (Z.ltb_spec i 0), (Z.ltb_spec j 0); intros [= Heq]; lia. }
  split.
  { intros v Hv. exists v. split; [lia|].
    rewrite pidx_in_range by lia. destruct (Z.ltb_spec v 0); [lia|done]. }
  split.
  { intros i j Hi Hj. rewrite !pidx_in_range by lia.
    destruct (Z.ltb_spec i 0), (Z.ltb_spec j 0); intros [= Heq]; lia. }
  intros v Hv. exists (v - r). split; [lia|].
  rewrite pidx_in_range by lia. destruct (Z.ltb_spec (v - r) 0); [|lia].
  f_equal. lia.
Qed.

Lemma pidx_normalizes_witness :
  pidx 3 (-1) = Ok 2 ∧ pidx 3 2 = pidx 3 (2 - 3).
Proof.
  destruct (pidx_normalizes 3 (-1)) as (H1 & _); [lia | lia |].
  destruct (pidx_normalizes 3 2) as (_ & _ & H3 & _); [lia | lia |].
  split; [exact H1 | apply H3; lia].
Defined.

(** C5: the normalizer fails with [InvalidRank] exactly when [r < 1], with
    [IndexOutOfBounds] exactly when [r >= 1] and [idx] is outside
    [-r, r-1], and returns a value exactly when [r >= 1] and [idx] is in
    [-r, r-1]; [normalize(0, 0)] is [InvalidRank] and [normalize(3, 3)] is
    [IndexOutOfBounds]. *)
Theorem pidx_errors (r idx : Z) :
  (pidx r idx = Raise InvalidRank ↔ r < 1) ∧
  (pidx r idx = Raise IndexOutOfBounds ↔ 1 ≤ r ∧ ¬ (- r ≤ idx ≤ r - 1)) ∧
  ((∃ v, pidx r idx = Ok v) ↔ 1 ≤ r ∧ - r ≤ idx ≤ r - 1) ∧
  pidx 0 0 = Raise InvalidRank ∧
  pidx 3 3 = Raise IndexOutOfBounds.
Proof.
  split; [|split; [|split; [|done]]].
  - unfold pidx, InvalidRank.
    destruct (Z.ltb_spec r 1); [done|].
    split; [|lia].
    destruct (negb _); [done|]. by destruct (idx <? 0).
  - unfold pidx, IndexOutOfBounds.
    destruct (Z.ltb_spec r 1); [split; [done|lia]|].
    destruct (Z.leb_spec (- r) idx), (Z.leb_spec idx (r - 1)); simpl;
      try (split; [intros _; lia | done]).
    split; [|lia]. by destruct (idx <? 0).
  - split.
    + intros [v Hv]. apply pidx_Ok_inv in Hv. lia.
    + intros [Hr Hidx]. eexists. by apply pidx_in_range.
Qed.

(** ** Python list primitives on indices that are in range *)

Lemma py_index_in_range (len i : Z) :
  0 ≤ i < len → py_index len i = Some (Z.to_nat i).
Proof.
  intros Hi. unfold py_index.
  destruct (Z.ltb_spec i 0); [lia|].
  destruct (Z.leb_spec 0 i); [|lia].
  destruct (Z.ltb_spec i len); [done|lia].
Qed.

Lemma py_clip_in_range (len i : Z) :
  0 ≤ i ≤ len → py_clip len i = Z.to_nat i.
Proof.
  intros Hi. unfold py_clip.
  destruct (Z.ltb_spec i 0); [lia|]. f_equal. lia.
Qed.

Lemma py_range_length (r : Z) : length (py_range r) = Z.to_nat r.
Proof. apply length_seqZ. Qed.

Lemma py_range_lookup (r : Z) (n : nat) :
  Z.of_nat n < r → py_range r !! n = Some (Z.of_nat n).
Proof. intros Hn. unfold py_range. by rewrite lookup_seqZ_lt. Qed.

(** ** Cycle permutation *)

Lemma get_popinsert_permutation_normalized (r idx0 idx1 n0 n1 : Z) :
  pidx r idx0 = Ok n0 → pidx r idx1 = Ok n1 →
  get_popinsert_permutation r idx0 idx1 = Ok (cyclePerm_spec r n0 n1).
Proof.
  intros H0 H1. unfold get_popinsert_permutation. rewrite H0, H1. simpl.
  apply pidx_Ok_inv in H0 as (Hr & _ & Hn0 & _).
  apply pidx_Ok_inv in H1 as (_ & _ & Hn1 & _).
  unfold py_pop. rewrite py_range_length, py_index_in_range by lia.
  rewrite py_range_lookup by lia. simpl.
  unfold py_insert. rewrite length_delete by (rewrite py_range_lookup by lia; done).
  rewrite py_range_length, py_clip_in_range by lia.
  unfold cyclePerm_spec, insert_at, remove_at, py_range.
  rewrite <- delete_take_drop. do 3 f_equal; lia.
Qed.

Section cycle.
Variables r n0 n1 : Z.
Hypothesis Hn0 : 0 ≤ n0 ≤ r - 1.
Hypothesis Hn1 : 0 ≤ n1 ≤ r - 1.

Let ident := seqZ 0 r.
Let rest := remove_at (Z.to_nat n0) ident.

Lemma ident_lookup_n0 : ident !! Z.to_nat n0 = Some n0.
Proof using Hn0.
  clear Hn1. unfold ident. rewrite lookup_seqZ_lt by lia. f_equal. lia.
Qed.

Lemma rest_length : length rest = Z.to_nat (r - 1).
Proof using Hn0.
  clear Hn1.
  unfold rest, remove_at. rewrite <- delete_take_drop.
  rewrite length_delete by (rewrite ident_lookup_n0; done).
  unfold ident. rewrite length_seqZ. lia.
Qed.

Lemma cyclePerm_spec_length : length (cyclePerm_spec r n0 n1) = Z.to_nat r.
Proof.
  unfold cyclePerm_spec, insert_at. fold ident. fold rest.
  rewrite length_app. simpl. rewrite length_take, length_drop, rest_length. lia.
Qed.

Lemma cyclePerm_spec_moved :
  cyclePerm_spec r n0 n1 !! Z.to_nat n1 = Some n0.
Proof.
  unfold cyclePerm_spec, insert_at. fold ident. fold rest.
  apply list_lookup_middle. rewrite length_take, rest_length. lia.
Qed.

Lemma cyclePerm_spec_others :
  delete (Z.to_nat n1) (cyclePerm_spec r n0 n1) = delete (Z.to_nat n0) ident.
Proof.
  unfold cyclePerm_spec, insert_at. fold ident. fold rest.
  assert (Z.to_nat n1 = length (take (Z.to_nat n1) rest)) as Hlen
    by (rewrite length_take, rest_length; lia).
  rewrite Hlen at 1. rewrite delete_middle, take_drop.
  unfold rest, remove_at. by rewrite delete_take_drop.
Qed.

Lemma cyclePerm_spec_Permutation : cyclePerm_spec r n0 n1 ≡ₚ ident.
Proof.
  unfold cyclePerm_spec, insert_at. fold ident. fold rest.
  rewrite <- Permutation_middle, take_drop.
  unfold rest, remove_at. rewrite <- delete_take_drop.
  symmetry. apply delete_Permutation, ident_lookup_n0.
Qed.

Lemma cyclePerm_spec_same : n0 = n1 → cyclePerm_spec r n0 n1 = ident.
Proof.
  intros Heq. rewrite <- Heq.
  unfold cyclePerm_spec, insert_at, remove_at. fold ident.
  assert (Z.to_nat n0 ≤ length ident)%nat as Hle
    by (unfold ident; rewrite length_seqZ; lia).
  rewrite take_app_le by (rewrite length_take; lia).
  rewrite take_take, Nat.min_id.
  rewrite drop_app_ge by (rewrite length_take; lia).
  rewrite length_take, Nat.min_l, Nat.sub_diag by lia. simpl.
  apply take_drop_middle, ident_lookup_n0.
Qed.
End cycle.

(** C3: for [r >= 1] and raw indices in [-r, r-1], the cycle permutation is
    the identity sequence with the element at the normalized [idx0] removed
    and reinserted at the normalized [idx1]; it has length [r], is a
    bijection on [0 .. r-1], carries the moved element at position [idx1],
    and without that element it is the identity without [idx0], so the
    other elements keep their relative order. *)
Theorem get_popinsert_permutation_cycle (r idx0 idx1 : Z) :
  1 ≤ r → - r ≤ idx0 ≤ r - 1 → - r ≤ idx1 ≤ r - 1 →
  ∃ n0 n1 p,
    pidx r idx0 = Ok n0 ∧ pidx r idx1 = Ok n1 ∧
    get_popinsert_permutation r idx0 idx1 = Ok p ∧
    p = cyclePerm_spec r n0 n1 ∧
    length p = Z.to_nat r ∧
    p ≡ₚ seqZ 0 r ∧ NoDup p ∧ (∀ k, k ∈ p ↔ 0 ≤ k ≤ r - 1) ∧
    p !! Z.to_nat n1 = Some n0 ∧
    delete (Z.to_nat n1) p = delete (Z.to_nat n0) (seqZ 0 r).
Proof.
  intros Hr H0 H1.
  pose proof (pidx_in_range r idx0 Hr H0) as E0.
  pose proof (pidx_in_range r idx1 Hr H1) as E1.
  set (n0 := if idx0 <? 0 then r + idx0 else idx0) in *.
  set (n1 := if idx1 <? 0 then r + idx1 else idx1) in *.
  assert (0 ≤ n0 ≤ r - 1) as Hn0 by (apply pidx_Ok_inv in E0; lia).
  assert (0 ≤ n1 ≤ r - 1) as Hn1 by (apply pidx_Ok_inv in E1; lia).
  exists n0, n1, (cyclePerm_spec r n0 n1).
  pose proof (cyclePerm_spec_Permutation r n0 n1 Hn0) as Hperm.
  split_and!; try done.
  - by apply get_popinsert_permutation_normalized.
  - by apply cyclePerm_spec_length.
  - rewrite Hperm. apply NoDup_seqZ.
  - intros k. rewrite Hperm, elem_of_seqZ. lia.
  - by apply cyclePerm_spec_moved.
  - by apply cyclePerm_spec_others.
Qed.

Lemma get_popinsert_permutation_cycle_witness :
  get_popinsert_permutation 5 1 (-1) = Ok [0; 2; 3; 4; 1].
Proof.
  destruct (get_popinsert_permutation_cycle 5 1 (-1))
    as (n0 & n1 & p & E0 & E1 & Ep & -> & _); [lia | lia | lia |].
  injection E0 as <-. injection E1 as <-. exact Ep.
Defined.

(** C8: when the two raw indices have the same normalization, the cycle
    permutation is the identity [0, 1, ..., r-1]. *)
Theorem get_popinsert_permutation_same (r idx0 idx1 : Z) :
  1 ≤ r → - r ≤ idx0 ≤ r - 1 → - r ≤ idx1 ≤ r - 1 →
  pidx r idx0 = pidx r idx1 →
  get_popinsert_permutation r idx0 idx1 = Ok (py_range r).
Proof.
  intros Hr H0 H1 Heq.
  pose proof (pidx_in_range r idx0 Hr H0) as E0.
  pose proof E0 as E1. rewrite Heq in E1.
  rewrite (get_popinsert_permutation_normalized _ _ _ _ _ E0 E1).
  f_equal. apply pidx_Ok_inv in E0 as (_ & _ & Hn0 & _).
  unfold py_range. by apply cyclePerm_spec_same.
Qed.

Lemma get_popinsert_permutation_same_witness :
  get_popinsert_permutation 4 (-1) 3 = Ok [0; 1; 2; 3].
Proof.
  apply (get_popinsert_permutation_same 4 (-1) 3); [lia | lia | lia | reflexivity].
Defined.

(** ** Gathering and transposing *)

Lemma np_getitem_in_range (s : list Z) (k : Z) :
  0 ≤ k < Z.of_nat (length s) → np_getitem s k = Ok (nth_Z s k).
Proof.
  intros Hk. unfold np_getitem, nth_Z. rewrite py_index_in_range by done.
  destruct (lookup_lt_is_Some_2 s (Z.to_nat k)) as [x ->]; [lia | done].
Qed.

Lemma np_take_in_range (s idxs : list Z) :
  Forall (fun k => 0 ≤ k < Z.of_nat (length s)) idxs →
  np_take s idxs = Ok (nth_Z s <$> idxs).
Proof.
  induction 1 as [|k ks Hk _ IH]; [done|].
  simpl. rewrite np_getitem_in_range by done. simpl. by rewrite IH.
Qed.

Lemma is_axes_permutation_intro (r : Z) (perm : list Z) :
  length perm = Z.to_nat r → 0 ≤ r →
  (∀ k, k ∈ perm ↔ 0 ≤ k < r) →
  is_axes_permutation r perm = true.
Proof.
  intros Hlen Hr Hin. unfold is_axes_permutation.
  rewrite !andb_true_iff. split_and!.
  - apply Z.eqb_eq. lia.
  - apply forallb_forall. intros k Hk%list_elem_of_In%Hin.
    apply andb_true_iff. split; [apply Z.leb_le | apply Z.ltb_lt]; lia.
  - apply forallb_forall. intros k Hk%list_elem_of_In%elem_of_seqZ.
    apply existsb_exists. exists k. split; [|by apply Z.eqb_eq].
    apply list_elem_of_In, Hin. lia.
Qed.

Lemma transpose_shape_permutation (arr : array) (perm : list Z) :
  length perm = length (np_tf_get_shape arr) →
  (∀ k, k ∈ perm ↔ 0 ≤ k < rank arr) →
  transpose_shape arr perm = Ok (Array (nth_Z (np_tf_get_shape arr) <$> perm)).
Proof.
  intros Hlen Hin. unfold transpose_shape.
  rewrite is_axes_permutation_intro; [| unfold rank; lia | unfold rank; lia | done].
  rewrite np_take_in_range; [done|].
  apply Forall_forall. intros k Hk%Hin. unfold rank in Hk. lia.
Qed.

(** ** Swap permutation *)

Lemma swap_at_involutive (i j k : Z) : swap_at i j (swap_at i j k) = k.
Proof.
  unfold swap_at.
  destruct (Z.eqb_spec k j) as [->|Hkj].
  - destruct (Z.eqb_spec i j); [lia|]. by rewrite Z.eqb_refl.
  - destruct (Z.eqb_spec k i) as [->|Hki].
    + by rewrite Z.eqb_refl.
    + destruct (Z.eqb_spec k j); [lia|]. by destruct (Z.eqb_spec k i).
Qed.

Lemma swap_at_range (r i j k : Z) :
  0 ≤ i < r → 0 ≤ j < r → 0 ≤ k < r → 0 ≤ swap_at i j k < r.
Proof.
  intros. unfold swap_at. destruct (k =? j), (k =? i); lia.
Qed.

Section swap.
Variables r idx0 idx1 : Z.
Hypothesis H0 : 0 ≤ idx0 ≤ r - 1.
Hypothesis H1 : 0 ≤ idx1 ≤ r - 1.

Lemma get_swapping_permutation_normalized :
  get_swapping_permutation r idx0 idx1 = Ok (swapPerm_spec r idx0 idx1).
Proof using H0 H1.
  unfold get_swapping_permutation, py_assert.
  destruct (Z.leb_spec 0 idx0); [|lia].
  destruct (Z.leb_spec 0 idx1); [|lia]. simpl.
  unfold py_setitem. rewrite py_range_length, py_index_in_range by lia. simpl.
  rewrite length_insert, py_range_length, py_index_in_range by lia.
  done.
Qed.

Lemma swapPerm_spec_length : length (swapPerm_spec r idx0 idx1) = Z.to_nat r.
Proof using Type. unfold swapPerm_spec. by rewrite !length_insert, length_seqZ. Qed.

Lemma swapPerm_spec_lookup (m : nat) :
  Z.of_nat m < r →
  swapPerm_spec r idx0 idx1 !! m = Some (swap_at idx0 idx1 (Z.of_nat m)).
Proof using H0 H1.
  intros Hm. unfold swapPerm_spec, swap_at.
  destruct (Z.eqb_spec (Z.of_nat m) idx1) as [E1|E1].
  { replace (Z.to_nat idx1) with m by lia.
    apply list_lookup_insert_eq. rewrite length_insert, length_seqZ. lia. }
  rewrite list_lookup_insert_ne by lia.
  destruct (Z.eqb_spec (Z.of_nat m) idx0) as [E0|E0].
  { replace (Z.to_nat idx0) with m by lia.
    apply list_lookup_insert_eq. rewrite length_seqZ. lia. }
  rewrite list_lookup_insert_ne by lia. by rewrite lookup_seqZ_lt.
Qed.

Lemma swapPerm_spec_nth (k : Z) :
  0 ≤ k < r → nth_Z (swapPerm_spec r idx0 idx1) k = swap_at idx0 idx1 k.
Proof using H0 H1.
  intros Hk. unfold nth_Z. rewrite swapPerm_spec_lookup by lia.
  simpl. f_equal. lia.
Qed.

Lemma swapPerm_spec_elem_of (k : Z) :
  k ∈ swapPerm_spec r idx0 idx1 ↔ 0 ≤ k < r.
Proof using H0 H1.
  split.
  - intros [m Hm]%list_elem_of_lookup.
    assert (Z.of_nat m < r) as Hlt.
    { apply lookup_lt_Some in Hm. rewrite swapPerm_spec_length in Hm. lia. }
    rewrite swapPerm_spec_lookup in Hm by done. injection Hm as <-.
    apply swap_at_range; lia.
  - intros Hk. apply list_elem_of_lookup.
    exists (Z.to_nat (swap_at idx0 idx1 k)).
    pose proof (swap_at_range r idx0 idx1 k) as Hrange.
    rewrite swapPerm_spec_lookup by lia.
    f_equal. rewrite Z2Nat.id by lia. apply swap_at_involutive.
Qed.

Lemma swapPerm_spec_self_inverse :
  perm_compose (swapPerm_spec r idx0 idx1) (swapPerm_spec r idx0 idx1)
  = Ok (seqZ 0 r).
Proof using H0 H1.
  unfold perm_compose. rewrite np_take_in_range.
  2:{ apply Forall_forall. intros k Hk%swapPerm_spec_elem_of.
      rewrite swapPerm_spec_length. lia. }
  f_equal. apply list_eq. intros m. rewrite list_lookup_fmap.
  destruct (decide (Z.of_nat m < r)) as [Hm|Hm].
  - rewrite swapPerm_spec_lookup, lookup_seqZ_lt by done. simpl. f_equal.
    rewrite swapPerm_spec_nth by (apply swap_at_range; lia).
    apply swap_at_involutive.
  - rewrite lookup_seqZ_ge by lia.
    rewrite (lookup_ge_None_2 (swapPerm_spec r idx0 idx1)); [done|].
    rewrite swapPerm_spec_length. lia.
Qed.

(** Transposing a shape by the swap permutation. *)
Lemma transpose_shape_swap (arr : array) :
  rank arr = r →
  transpose_shape arr (swapPerm_spec r idx0 idx1)
  = Ok (Array (nth_Z (np_tf_get_shape arr) <$> swapPerm_spec r idx0 idx1)).
Proof using H0 H1.
  intros Hrank. apply transpose_shape_permutation.
  - rewrite swapPerm_spec_length. unfold rank in Hrank. lia.
  - intros k. rewrite Hrank. apply swapPerm_spec_elem_of.
Qed.

Lemma swap_twice_shape (s : list Z) :
  Z.of_nat (length s) = r →
  nth_Z (nth_Z s <$> swapPerm_spec r idx0 idx1) <$> swapPerm_spec r idx0 idx1 = s.
Proof using H0 H1.
  intros Hlen. apply list_eq. intros m. rewrite list_lookup_fmap.
  destruct (decide (Z.of_nat m < r)) as [Hm|Hm].
  - rewrite swapPerm_spec_lookup by done. simpl.
    pose proof (swap_at_range r idx0 idx1 (Z.of_nat m)) as Hrange.
    unfold nth_Z at 1. rewrite list_lookup_fmap.
    rewrite swapPerm_spec_lookup by lia. simpl.
    rewrite Z2Nat.id, swap_at_involutive by lia.
    unfold nth_Z. rewrite Nat2Z.id.
    destruct (lookup_lt_is_Some_2 s m) as [x ->]; [lia | done].
  - rewrite (lookup_ge_None_2 (swapPerm_spec r idx0 idx1))
      by (rewrite swapPerm_spec_length; lia).
    simpl. symmetry. apply lookup_ge_None_2. lia.
Qed.
End swap.

Lemma swapPerm_spec_same (r n : Z) :
  0 ≤ n ≤ r - 1 → swapPerm_spec r n n = seqZ 0 r.
Proof.
  intros Hn. unfold swapPerm_spec.
  assert (seqZ 0 r !! Z.to_nat n = Some n) as Hlookup
    by (rewrite lookup_seqZ_lt by lia; f_equal; lia).
  rewrite (list_insert_id (seqZ 0 r)) by done. by apply list_insert_id.
Qed.

Lemma nth_Z_identity (s : list Z) :
  nth_Z s <$> seqZ 0 (Z.of_nat (length s)) = s.
Proof.
  apply list_eq. intros m. rewrite list_lookup_fmap.
  destruct (decide (m < length s)%nat) as [Hm|Hm].
  - rewrite lookup_seqZ_lt by lia. simpl. unfold nth_Z.
    replace (Z.to_nat (0 + Z.of_nat m)) with m by lia.
    destruct (lookup_lt_is_Some_2 s m) as [x ->]; done.
  - rewrite lookup_seqZ_ge by lia. simpl. symmetry.
    apply lookup_ge_None_2. lia.
Qed.

(** ** swap_axes *)

Lemma swap_axes_normalized (arr : array) (axis0 axis1 n0 n1 : Z) (log : list call) :
  pidx (rank arr) axis0 = Ok n0 → pidx (rank arr) axis1 = Ok n1 →
  let p := swapPerm_spec (rank arr) n0 n1 in
  swap_axes arr axis0 axis1 log
  = (Ok (Array (nth_Z (np_tf_get_shape arr) <$> p)), log ++ [Transpose arr p]).
Proof.
  intros E0 E1 p. unfold swap_axes, mbind, prog_bind, pure.
  rewrite E0, E1.
  apply pidx_Ok_inv in E0 as (Hr & _ & Hn0 & _).
  apply pidx_Ok_inv in E1 as (_ & _ & Hn1 & _).
  unfold py_assert.
  destruct (Z.leb_spec n0 (rank arr - 1)); [|lia].
  destruct (Z.leb_spec n1 (rank arr - 1)); [|lia].
  rewrite get_swapping_permutation_normalized by done.
  unfold lib_transpose. by rewrite transpose_shape_swap.
Qed.

(** C7: for normalized [idx0 <> idx1] in [0, r-1], the swap permutation
    composed with itself is the identity permutation of length [r];
    consequently swapping the same two axes of an array of rank [r] twice
    gives back an array of the original shape. *)
Theorem get_swapping_permutation_self_inverse (r idx0 idx1 : Z) :
  0 ≤ idx0 ≤ r - 1 → 0 ≤ idx1 ≤ r - 1 → idx0 ≠ idx1 →
  ∃ p, get_swapping_permutation r idx0 idx1 = Ok p ∧
       p = swapPerm_spec r idx0 idx1 ∧
       perm_compose p p = Ok (py_range r) ∧
       ∀ arr, rank arr = r →
         fst (run (arr' ← swap_axes arr idx0 idx1; swap_axes arr' idx0 idx1))
         = Ok arr.
Proof.
  intros H0 H1 _. exists (swapPerm_spec r idx0 idx1). split_and!.
  - by apply get_swapping_permutation_normalized.
  - done.
  - by apply swapPerm_spec_self_inverse.
  - intros arr Hrank.
    assert (pidx r idx0 = Ok idx0) as E0.
    { rewrite pidx_in_range by lia. by destruct (Z.ltb_spec idx0 0); [lia|]. }
    assert (pidx r idx1 = Ok idx1) as E1.
    { rewrite pidx_in_range by lia. by destruct (Z.ltb_spec idx1 0); [lia|]. }
    unfold run, mbind at 1, prog_bind at 1. subst r.
    rewrite (swap_axes_normalized arr idx0 idx1 idx0 idx1) by done.
    set (arr' := Array _).
    assert (rank arr' = rank arr) as Hrank'.
    { unfold rank, arr'. simpl. rewrite length_fmap, swapPerm_spec_length.
      unfold rank. lia. }
    rewrite (swap_axes_normalized arr' idx0 idx1 idx0 idx1)
      by (by rewrite Hrank').
    simpl. rewrite Hrank'. unfold arr'. simpl.
    rewrite swap_twice_shape by done. by destruct arr.
Qed.

Lemma get_swapping_permutation_self_inverse_witness :
  get_swapping_permutation 5 4 1 = Ok [0; 4; 2; 3; 1] ∧
  perm_compose [0; 4; 2; 3; 1] [0; 4; 2; 3; 1] = Ok [0; 1; 2; 3; 4].
Proof.
  destruct (get_swapping_permutation_self_inverse 5 4 1)
    as (p & Ep & -> & Hcomp & _); [lia | lia | lia |].
  split; [exact Ep | exact Hcomp].
Defined.

(** C10: swapping an axis of an array of rank [r >= 1] with itself, for any
    raw index in [-r, r-1], succeeds; the permutation handed to the
    transpose is the identity, and the result has the input's shape. *)
Theorem swap_axes_same_axis (arr : array) (i : Z) :
  1 ≤ rank arr → - rank arr ≤ i ≤ rank arr - 1 →
  ∃ n, pidx (rank arr) i = Ok n ∧
       get_swapping_permutation (rank arr) n n = Ok (py_range (rank arr)) ∧
       run (swap_axes arr i i) = (Ok arr, [Transpose arr (py_range (rank arr))]).
Proof.
  intros Hr Hi.
  pose proof (pidx_in_range _ _ Hr Hi) as E.
  set (n := if i <? 0 then rank arr + i else i) in *.
  assert (0 ≤ n ≤ rank arr - 1) as Hn by (apply pidx_Ok_inv in E; lia).
  exists n. split_and!; [done | |].
  - rewrite get_swapping_permutation_normalized by done.
    by rewrite swapPerm_spec_same.
  - unfold run. rewrite (swap_axes_normalized arr i i n n) by done.
    rewrite swapPerm_spec_same by done. simpl.
    unfold rank at 1. rewrite nth_Z_identity. by destruct arr.
Qed.

Lemma swap_axes_same_axis_witness :
  run (swap_axes (Array [2; 3; 5]) (-2) (-2))
  = (Ok (Array [2; 3; 5]), [Transpose (Array [2; 3; 5]) [0; 1; 2]]).
Proof.
  destruct (swap_axes_same_axis (Array [2; 3; 5]) (-2))
    as (n & _ & _ & Hrun); [unfold rank; simpl; lia | unfold rank; simpl; lia |].
  exact Hrun.
Defined.

(** ** Shapes and the reshape primitive *)

Lemma size_of_app (l1 l2 : list Z) : size_of (l1 ++ l2) = size_of l1 * size_of l2.
Proof.
  unfold size_of. induction l1 as [|x l1 IH]; simpl; [lia|]. rewrite IH. lia.
Qed.

Lemma size_of_cons (x : Z) (l : list Z) : size_of (x :: l) = x * size_of l.
Proof. done. Qed.

Lemma size_of_pos (l : list Z) : Forall (fun d => 0 < d) l → 0 < size_of l.
Proof.
  unfold size_of. induction 1 as [|x l Hx _ IH]; simpl; lia.
Qed.

Lemma filter_known_id (l : list Z) :
  Forall (fun d => 0 ≤ d) l → filter (fun d => d ≠ wildcard) l = l.
Proof.
  induction 1 as [|x l Hx _ IH]; [done|].
  rewrite filter_cons_True by (unfold wildcard; lia). by rewrite IH.
Qed.

Lemma fill_wildcard_known (v : Z) (l : list Z) :
  Forall (fun d => 0 ≤ d) l → fill_wildcard v l = l.
Proof.
  unfold fill_wildcard. induction 1 as [|x l Hx _ IH]; [done|].
  rewrite fmap_cons, IH.
  destruct (Z.eqb_spec x wildcard); [unfold wildcard in *; lia | done].
Qed.

Lemma fill_wildcard_middle (v : Z) (pre post : list Z) :
  Forall (fun d => 0 ≤ d) pre → Forall (fun d => 0 ≤ d) post →
  fill_wildcard v (pre ++ wildcard :: post) = pre ++ v :: post.
Proof.
  intros Hpre Hpost.
  pose proof (fill_wildcard_known v pre Hpre) as Epre.
  pose proof (fill_wildcard_known v post Hpost) as Epost.
  unfold fill_wildcard in *. rewrite fmap_app, fmap_cons, Epre, Epost.
  by rewrite Z.eqb_refl.
Qed.

(** A reshape to a target with one wildcard among positive sizes infers the
    wildcard whenever the sizes fit. *)
Lemma reshape_shape_infer (arr : array) (pre post : list Z) (v : Z) :
  Forall (fun d => 0 < d) pre → Forall (fun d => 0 < d) post →
  size_of (np_tf_get_shape arr) = v * size_of (pre ++ post) →
  reshape_shape arr (pre ++ wildcard :: post) = Ok (Array (pre ++ v :: post)).
Proof.
  intros Hpre Hpost Htotal.
  assert (Forall (fun d => 0 ≤ d) pre) as Hpre'
    by (eapply Forall_impl; [done | simpl; lia]).
  assert (Forall (fun d => 0 ≤ d) post) as Hpost'
    by (eapply Forall_impl; [done | simpl; lia]).
  assert (0 < size_of (pre ++ post)) as Hpos
    by (apply size_of_pos, Forall_app; done).
  unfold reshape_shape.
  rewrite filter_app, filter_cons_False by (intros Hne; by apply Hne).
  rewrite !filter_known_id by done.
  replace (forallb (fun d => 0 <=? d) (pre ++ post)) with true.
  2:{ symmetry. apply forallb_forall. intros d Hd%list_elem_of_In.
      apply Z.leb_le. revert d Hd. apply Forall_forall, Forall_app. done. }
  simpl negb. cbv iota.
  replace (length (pre ++ wildcard :: post) - length (pre ++ post))%nat with 1%nat
    by (rewrite !length_app; simpl; lia).
  rewrite Htotal.
  destruct (Z.eqb_spec (size_of (pre ++ post)) 0); [lia|].
  rewrite Z.mod_mul, Z.div_mul by lia. simpl.
  by rewrite fill_wildcard_middle.
Qed.

(** ** pack_to_axis *)

(** C9, as stated, fails: with equal axis arguments that are out of range
    for the array, the first assertion, on the range of the source axis,
    fails before the axes are compared. *)
Lemma pack_to_axis_same_axis_out_of_range :
  run (pack_to_axis (Array [2; 3]) 5 5)
  = (Raise (AssertionError (Some "axis source oob")), [])
  ∧ fst (run (pack_to_axis (Array [2; 3]) 5 5)) ≠ Raise IdenticalAxesError.
Proof. split; [reflexivity | discriminate]. Qed.

(** C9, amended: with [axisSource == axisTarget], packing fails before any
    transpose or reshape is performed; it fails with [IdenticalAxesError]
    exactly when the common index is in [-r, r-1], and with the assertion
    on the range of the source axis otherwise. *)
Theorem pack_to_axis_identical_axes (arr : array) (axis : Z) :
  (run (pack_to_axis arr axis axis) = (Raise IdenticalAxesError, [])
   ↔ - rank arr ≤ axis ≤ rank arr - 1) ∧
  (run (pack_to_axis arr axis axis)
   = (Raise (AssertionError (Some "axis source oob")), [])
   ↔ ¬ (- rank arr ≤ axis ≤ rank arr - 1)).
Proof.
  unfold run, pack_to_axis, mbind, prog_bind, pure, py_assert, IdenticalAxesError.
  rewrite Z.eqb_refl.
  destruct (Z.leb_spec (- rank arr) axis), (Z.leb_spec axis (rank arr - 1));
    simpl; (split; split; (done || lia)).
Qed.

(** The two documented scenarios, up to the call of the reshape primitive. *)
Lemma pack_to_axis_1_3 (A B C D : Z) :
  run (pack_to_axis (Array [A; B; C; D]) 1 3)
  = lib_reshape (Array [A; C; B; D]) [A; C; wildcard]
      [Transpose (Array [A; B; C; D]) [0; 2; 1; 3]].
Proof. reflexivity. Qed.

Lemma pack_to_axis_2_0 (A B C D : Z) :
  run (pack_to_axis (Array [A; B; C; D]) 2 0)
  = lib_reshape (Array [C; A; B; D]) [wildcard; B; D]
      [Transpose (Array [A; B; C; D]) [2; 0; 1; 3]].
Proof. reflexivity. Qed.

(** C2: on a shape [(A, B, C, D)], packing axis 1 into axis 3 hands the
    shape [(A, C, wildcard)] to the reshape, which stands for
    [(A, C, B*D)], and packing axis 2 into axis 0 hands [(wildcard, B, D)],
    which stands for [(C*A, B, D)]; with positive sizes these are the
    shapes of the results. *)
Theorem pack_to_axis_scenarios (A B C D : Z) :
  0 ≤ A → 0 ≤ B → 0 ≤ C → 0 ≤ D →
  (snd (run (pack_to_axis (Array [A; B; C; D]) 1 3))
   = [Transpose (Array [A; B; C; D]) [0; 2; 1; 3];
      Reshape (Array [A; C; B; D]) [A; C; wildcard]]
   ∧ fill_wildcard (B * D) [A; C; wildcard] = [A; C; B * D]
   ∧ (0 < A → 0 < C →
      fst (run (pack_to_axis (Array [A; B; C; D]) 1 3))
      = Ok (Array [A; C; B * D]))) ∧
  (snd (run (pack_to_axis (Array [A; B; C; D]) 2 0))
   = [Transpose (Array [A; B; C; D]) [2; 0; 1; 3];
      Reshape (Array [C; A; B; D]) [wildcard; B; D]]
   ∧ fill_wildcard (C * A) [wildcard; B; D] = [C * A; B; D]
   ∧ (0 < B → 0 < D →
      fst (run (pack_to_axis (Array [A; B; C; D]) 2 0))
      = Ok (Array [C * A; B; D]))).
Proof.
  intros HA HB HC HD. split.
  - rewrite pack_to_axis_1_3. unfold lib_reshape. simpl fst. simpl snd.
    split_and!; [done | |].
    + apply (fill_wildcard_middle (B * D) [A; C] []); repeat constructor; lia.
    + intros HA' HC'.
      apply (reshape_shape_infer (Array [A; C; B; D]) [A; C] [] (B * D));
        [repeat constructor; lia | constructor |].
      unfold size_of. simpl. lia.
  - rewrite pack_to_axis_2_0. unfold lib_reshape. simpl fst. simpl snd.
    split_and!; [done | |].
    + apply (fill_wildcard_middle (C * A) [] [B; D]); repeat constructor; lia.
    + intros HB' HD'.
      apply (reshape_shape_infer (Array [C; A; B; D]) [] [B; D] (C * A));
        [constructor | repeat constructor; lia |].
      unfold size_of. simpl. lia.
Qed.

Lemma pack_to_axis_scenarios_witness :
  run (pack_to_axis (Array [2; 3; 5; 7]) 1 3)
  = (Ok (Array [2; 5; 21]),
     [Transpose (Array [2; 3; 5; 7]) [0; 2; 1; 3];
      Reshape (Array [2; 5; 3; 7]) [2; 5; -1]])
  ∧ run (pack_to_axis (Array [2; 3; 5; 7]) 2 0)
  = (Ok (Array [10; 3; 7]),
     [Transpose (Array [2; 3; 5; 7]) [2; 0; 1; 3];
      Reshape (Array [5; 2; 3; 7]) [-1; 3; 7]]).
Proof.
  destruct (pack_to_axis_scenarios 2 3 5 7)
    as ((L1 & _ & R1) & (L2 & _ & R2)); [lia | lia | lia | lia |].
  split; apply injective_projections;
    [apply R1; lia | exact L1 | apply R2; lia | exact L2].
Defined.

(** ** unpack_axis *)

Lemma remove_at_take {A : Type} (n : nat) (l : list A) :
  take n (remove_at n l) = take n l.
Proof.
  unfold remove_at.
  destruct (decide (n ≤ length l)%nat) as [Hn|Hn].
  - rewrite take_app_le by (rewrite length_take; lia).
    by rewrite take_take, Nat.min_id.
  - rewrite (drop_ge l (S n)) by lia. rewrite app_nil_r.
    by rewrite take_take, Nat.min_id.
Qed.

Lemma remove_at_drop {A : Type} (n : nat) (l : list A) :
  drop n (remove_at n l) = drop (S n) l.
Proof.
  unfold remove_at.
  destruct (decide (n ≤ length l)%nat) as [Hn|Hn].
  - rewrite drop_app_ge by (rewrite length_take; lia).
    rewrite length_take, Nat.min_l, Nat.sub_diag by lia. done.
  - rewrite (drop_ge l (S n)) by lia. rewrite app_nil_r.
    apply drop_ge. rewrite length_take. lia.
Qed.

Lemma planUnpack_spec_eq (s : list Z) (n : nat) (innerSize : Z) :
  (n < length s)%nat →
  planUnpack_spec s n innerSize
  = take n s ++ [wildcard; innerSize] ++ drop (S n) s.
Proof.
  intros Hn. unfold planUnpack_spec.
  assert (length (take n s) = n) as Hlen by (rewrite length_take; lia).
  unfold insert_at at 2. rewrite remove_at_take, remove_at_drop.
  unfold insert_at.
  by rewrite (take_app_length' _ _ n), (drop_app_length' _ _ n).
Qed.

Lemma unpack_axis_normalized
    (arr : array) (axis_source axis1_size n : Z) (log : list call) :
  pidx (rank arr) axis_source = Ok n →
  let s := np_tf_get_shape arr in
  unpack_axis arr axis_source axis1_size log
  = lib_reshape arr
      (take (Z.to_nat n) s ++ [wildcard; axis1_size] ++ drop (S (Z.to_nat n)) s)
      log.
Proof.
  intros E s. unfold unpack_axis, mbind, prog_bind, pure. rewrite E.
  apply pidx_Ok_inv in E as (Hr & _ & Hn & _). unfold rank in *. fold s in Hr, Hn |- *.
  unfold py_assert.
  destruct (Z.leb_spec 0 n); [|lia].
  destruct (Z.leb_spec n (Z.of_nat (length s) - 1)); [|lia]. simpl.
  unfold py_delitem. rewrite py_index_in_range by lia.
  unfold py_slice_to, py_slice_from.
  rewrite length_delete by (apply lookup_lt_is_Some_2; lia).
  rewrite py_clip_in_range by lia.
  rewrite delete_take_drop. fold (remove_at (Z.to_nat n) s).
  by rewrite remove_at_take, remove_at_drop.
Qed.

Lemma size_of_split (s : list Z) (n : nat) (x : Z) :
  s !! n = Some x →
  size_of s = x * size_of (take n s ++ drop (S n) s).
Proof.
  intros Hx. rewrite <- (take_drop_middle s n x Hx) at 1.
  rewrite !size_of_app, size_of_cons. lia.
Qed.

Lemma unpack_axis_result (arr : array) (axis_source inner n size : Z) :
  pidx (rank arr) axis_source = Ok n →
  let s := np_tf_get_shape arr in
  Forall (fun d => 0 < d) (take (Z.to_nat n) s ++ drop (S (Z.to_nat n)) s) →
  0 < inner → s !! Z.to_nat n = Some size → (inner | size) →
  let s' := take (Z.to_nat n) s ++ [size / inner; inner] ++ drop (S (Z.to_nat n)) s in
  fst (run (unpack_axis arr axis_source inner)) = Ok (Array s') ∧
  size_of s' = size_of s.
Proof.
  intros E s Hpos Hinner Hsize [outer ->] s'. unfold s'.
  rewrite Z.div_mul by lia.
  apply Forall_app in Hpos as [Hpre Hpost].
  assert (size_of s
          = outer * size_of (take (Z.to_nat n) s ++ inner :: drop (S (Z.to_nat n)) s))
    as Htotal.
  { rewrite (size_of_split s _ _ Hsize), !size_of_app, size_of_cons. lia. }
  split.
  - unfold run. rewrite (unpack_axis_normalized arr axis_source inner n) by done.
    unfold lib_reshape. simpl fst.
    apply (reshape_shape_infer arr _ (inner :: _) outer); [done | by constructor | done].
  - rewrite Htotal. simpl app. rewrite !size_of_app, !size_of_cons. lia.
Qed.

Lemma unpack_axis_count (s : list Z) (n : nat) (size inner : Z) :
  s !! n = Some size → (inner | size) →
  size_of (take n s ++ [size / inner; inner] ++ drop (S n) s) = size_of s.
Proof.
  intros Hsize [outer ->].
  rewrite (size_of_split s n _ Hsize). simpl app.
  rewrite !size_of_app, !size_of_cons.
  destruct (decide (inner = 0)) as [->|Hne]; [lia|].
  rewrite Z.div_mul by done. lia.
Qed.

(** C6: for an axis that normalizes to [n] in [0, r-1], unpacking hands to
    the reshape the shape with the entry at [n] removed and the two entries
    [wildcard, innerSize] inserted at that position, of rank [r + 1]; when
    [innerSize] divides the size of the axis, that shape with the quotient
    for the wildcard has the number of elements of the input, and it is the
    shape of the result.  On [(A, B, CD, E)], unpacking axis 2 by [D] gives
    [(A, B, CD / D, D, E)]. *)
Theorem unpack_axis_plan (arr : array) (axis_source innerSize n : Z) :
  pidx (rank arr) axis_source = Ok n →
  let s := np_tf_get_shape arr in
  let plan := planUnpack_spec s (Z.to_nat n) innerSize in
  snd (run (unpack_axis arr axis_source innerSize)) = [Reshape arr plan] ∧
  plan = take (Z.to_nat n) s ++ [wildcard; innerSize] ++ drop (S (Z.to_nat n)) s ∧
  length plan = S (length s) ∧
  (∀ size,
     s !! Z.to_nat n = Some size → (innerSize | size) →
     let s' := take (Z.to_nat n) s ++ [size / innerSize; innerSize]
               ++ drop (S (Z.to_nat n)) s in
     size_of s' = size_of s ∧
     (Forall (fun d => 0 ≤ d) s → 0 ≤ innerSize →
      fill_wildcard (size / innerSize) plan = s') ∧
     (Forall (fun d => 0 < d) (take (Z.to_nat n) s ++ drop (S (Z.to_nat n)) s) →
      0 < innerSize →
      fst (run (unpack_axis arr axis_source innerSize)) = Ok (Array s'))) ∧
  (∀ A B CD D E,
     0 < A → 0 < B → 0 < D → 0 < E → (D | CD) →
     run (unpack_axis (Array [A; B; CD; E]) 2 D)
     = (Ok (Array [A; B; CD / D; D; E]),
        [Reshape (Array [A; B; CD; E]) [A; B; wildcard; D; E]])).
Proof.
  intros E s plan.
  assert (Z.to_nat n < length s)%nat as Hn
    by (apply pidx_Ok_inv in E; unfold rank in E; fold s in E; lia).
  assert (plan = take (Z.to_nat n) s ++ [wildcard; innerSize]
                 ++ drop (S (Z.to_nat n)) s) as Hplan
    by (by apply planUnpack_spec_eq).
  split_and!.
  - unfold run. rewrite (unpack_axis_normalized arr axis_source innerSize n) by done.
    fold s. by rewrite <- Hplan.
  - done.
  - rewrite Hplan, !length_app, length_take, length_drop. simpl. lia.
  - intros size Hsize Hdiv s'. split_and!.
    + by apply unpack_axis_count.
    + intros Hnonneg Hinner. rewrite Hplan.
      apply (fill_wildcard_middle _ _ (innerSize :: _)).
      * by apply Forall_take.
      * constructor; [done|]. by apply Forall_drop.
    + intros Hpos Hinner.
      by apply (unpack_axis_result arr axis_source innerSize n size).
  - intros A B CD D E' HA HB HD HE Hdiv.
    apply injective_projections.
    + apply (unpack_axis_result (Array [A; B; CD; E']) 2 D 2 CD);
        [done | repeat constructor; lia | done | done | done].
    + done.
Qed.

Lemma unpack_axis_plan_witness :
  run (unpack_axis (Array [2; 3; 35; 11]) (-2) 7)
  = (Ok (Array [2; 3; 5; 7; 11]),
     [Reshape (Array [2; 3; 35; 11]) [2; 3; -1; 7; 11]]).
Proof.
  destruct (unpack_axis_plan (Array [2; 3; 35; 11]) (-2) 7 2)
    as (Hlog & _ & _ & Hres & _); [reflexivity|].
  destruct (Hres 35) as (_ & _ & Hfst); [reflexivity | by exists 5 |].
  apply injective_projections; [|exact Hlog].
  apply Hfst; [repeat constructor; lia | lia].
Defined.

(** C1: evaluation at an input where the claim fails.  On a shape [(2, 3)],
    packing the last axis, addressed as [-1], into axis 0 compares the raw
    source [-1] with the normalized target, takes the move for a forward
    one, and hands the shape [(2, wildcard, 3)] of rank 3 to the reshape:
    the result has rank [r + 1 = 3], not [r - 1 = 1]. *)
Theorem pack_to_axis_negative_source :
  run (pack_to_axis (Array [2; 3]) (-1) 0)
  = (Ok (Array [2; 1; 3]),
     [Transpose (Array [2; 3]) [0; 1]; Reshape (Array [2; 3]) [2; wildcard; 3]])
  ∧ rank (Array [2; 1; 3]) ≠ rank (Array [2; 3]) - 1.
Proof. split; [reflexivity | discriminate]. Qed.

(** A target that names the source axis by its other index passes the
    assertion on identical axes, which compares the raw indices: on a shape
    [(2, 3)], packing axis [1] into axis [-1] deletes one entry instead of
    two and returns an array of rank 2. *)
Lemma pack_to_axis_aliased_target :
  run (pack_to_axis (Array [2; 3]) 1 (-1))
  = (Ok (Array [2; 3]),
     [Transpose (Array [2; 3]) [0; 1]; Reshape (Array [2; 3]) [2; wildcard]]).
Proof. reflexivity. Qed.

(** ** pack_to_axis on a source given as a nonnegative index *)

Lemma size_of_Permutation (l1 l2 : list Z) : l1 ≡ₚ l2 → size_of l1 = size_of l2.
Proof.
  induction 1 as [|x l1 l2 _ IH|x y l|l1 l2 l3 _ IH1 _ IH2];
    rewrite ?size_of_cons; try rewrite IH; lia.
Qed.

Lemma cyclePerm_spec_next (r n0 n1 t : Z) :
  0 ≤ n0 ≤ r - 1 → 0 ≤ t ≤ r - 1 → t ≠ n0 →
  n1 = t - Z.b2z (n0 <? t) →
  cyclePerm_spec r n0 n1 !! S (Z.to_nat n1) = Some t.
Proof.
  intros Hn0 Ht Hne ->.
  unfold cyclePerm_spec, insert_at.
  set (rest := remove_at (Z.to_nat n0) (seqZ 0 r)).
  set (n1 := t - Z.b2z (n0 <? t)).
  assert (0 ≤ n1 ≤ r - 2) as Hn1
    by (unfold n1; destruct (Z.ltb_spec n0 t); simpl; lia).
  assert (length rest = Z.to_nat (r - 1)) as Hrest by (by apply rest_length).
  rewrite lookup_app_r by (rewrite length_take; lia).
  rewrite length_take, Nat.min_l by lia.
  replace (S (Z.to_nat n1) - Z.to_nat n1)%nat with 1%nat by lia.
  simpl. rewrite lookup_drop, Nat.add_0_r.
  unfold rest, remove_at, n1.
  destruct (Z.ltb_spec n0 t); simpl.
  - rewrite lookup_app_r by (rewrite length_take; lia).
    rewrite length_take, length_seqZ, Nat.min_l by lia.
    rewrite lookup_drop, lookup_seqZ_lt by lia. f_equal. lia.
  - rewrite lookup_app_l by (rewrite length_take, length_seqZ; lia).
    rewrite lookup_take_lt by lia.
    rewrite lookup_seqZ_lt by lia. f_equal. lia.
Qed.

Lemma size_of_split2 (l : list Z) (n : nat) (x y : Z) :
  l !! n = Some x → l !! S n = Some y →
  size_of l = (x * y) * size_of (take n l ++ drop (S (S n)) l).
Proof.
  intros Hx Hy.
  rewrite (size_of_split l n x Hx).
  assert ((take n l ++ drop (S n) l) !! n = Some y) as Hy'.
  { rewrite lookup_app_r by (rewrite length_take; lia).
    rewrite lookup_drop. rewrite <- Hy. f_equal.
    apply lookup_lt_Some in Hx. rewrite length_take. lia. }
  rewrite (size_of_split _ n y Hy').
  assert (length (take n l) = n) as Hlen
    by (apply lookup_lt_Some in Hx; rewrite length_take; lia).
  rewrite (take_app_length' _ _ n), (drop_app_ge _ _ (S n)) by lia.
  rewrite Hlen, drop_drop.
  replace (S n + (S n - n))%nat with (S (S n)) by lia. lia.
Qed.

Section pack.
Variable arr : array.
Variables axis_source axis_target : Z.

Local Abbreviation r := (rank arr).
Local Abbreviation s := (np_tf_get_shape arr).
Local Abbreviation t := (pack_target (rank arr) axis_target).
Local Abbreviation pretarget := (pack_pretarget (rank arr) axis_source axis_target).
Local Abbreviation permuter := (pack_permuter (rank arr) axis_source axis_target).
Local Abbreviation s_permute := (pack_s_permute arr axis_source axis_target).

Hypothesis Hsource : 0 ≤ axis_source ≤ r - 1.
Hypothesis Htarget : - r + 1 ≤ axis_target ≤ r - 1.
Hypothesis Hdistinct : t ≠ axis_source.

Lemma pack_target_range : 0 ≤ t ≤ r - 1.
Proof using Htarget.
  clear Hdistinct. unfold pack_target in *.
  destruct (Z.ltb_spec axis_target 0); lia.
Qed.

Lemma pack_pretarget_range : 0 ≤ pretarget ≤ r - 2.
Proof using Hsource Htarget Hdistinct.
  pose proof pack_target_range as Ht. unfold pack_pretarget in *.
  destruct (Z.ltb_spec axis_source t); simpl; lia.
Qed.

Lemma pack_permuter_Permutation : permuter ≡ₚ seqZ 0 r.
Proof using Hsource. by apply cyclePerm_spec_Permutation. Qed.

Lemma pack_permuter_elem_of (k : Z) : k ∈ permuter ↔ 0 ≤ k < r.
Proof using Hsource. rewrite pack_permuter_Permutation, elem_of_seqZ. lia. Qed.

Lemma pack_permuter_length : length permuter = length s.
Proof using Hsource.
  rewrite pack_permuter_Permutation, length_seqZ. unfold rank. lia.
Qed.

Lemma pack_get_popinsert_permutation :
  get_popinsert_permutation r axis_source pretarget = Ok permuter.
Proof using Hsource Htarget Hdistinct.
  pose proof pack_pretarget_range as Hpre.
  apply get_popinsert_permutation_normalized.
  - rewrite pidx_in_range by lia. by destruct (Z.ltb_spec axis_source 0); [lia|].
  - rewrite pidx_in_range by lia. by destruct (Z.ltb_spec pretarget 0); [lia|].
Qed.

Lemma pack_s_permute_length : length s_permute = Z.to_nat r.
Proof using Hsource.
  unfold pack_s_permute. rewrite length_fmap, pack_permuter_length.
  unfold rank. lia.
Qed.

(** The run of [pack_to_axis], up to the call of the reshape primitive. *)
Lemma pack_to_axis_normalized :
  axis_target ≠ axis_source →
  run (pack_to_axis arr axis_source axis_target)
  = lib_reshape (Array s_permute)
      (take (Z.to_nat pretarget) s_permute
       ++ wildcard :: drop (Z.to_nat pretarget + 2) s_permute)
      [Transpose arr permuter].
Proof using Hsource Htarget Hdistinct.
  intros Hraw. pose proof pack_pretarget_range as Hpre.
  unfold run, pack_to_axis, mbind at 1 2 3, prog_bind at 1 2 3, pure, py_assert.
  destruct (Z.leb_spec (- r) axis_source); [|lia].
  destruct (Z.leb_spec axis_source (r - 1)); [|lia].
  destruct (Z.eqb_spec axis_target axis_source); [done|].
  destruct (Z.leb_spec (- r + 1) axis_target); [|lia].
  destruct (Z.leb_spec axis_target (r - 1)); [|lia].
  simpl andb. simpl negb. cbv iota zeta.
  replace (if axis_target <? 0 then r - Z.abs axis_target else axis_target)
    with t by (unfold pack_target; destruct (Z.ltb_spec axis_target 0); lia).
  change (t - Z.b2z (axis_source <? t)) with pretarget.
  unfold popinsert_axes, mbind, prog_bind, pure, py_assert.
  destruct (Z.leb_spec (- r) axis_source); [|lia].
  destruct (Z.leb_spec axis_source (r - 1)); [|lia].
  destruct (Z.leb_spec (- r) pretarget); [|lia].
  destruct (Z.leb_spec pretarget (r - 1)); [|lia].
  simpl andb. cbv iota.
  rewrite pack_get_popinsert_permutation.
  unfold lib_transpose.
  rewrite transpose_shape_permutation
    by (apply pack_permuter_length || apply pack_permuter_elem_of).
  change (nth_Z s <$> permuter) with s_permute.
  rewrite np_take_in_range.
  2:{ apply Forall_forall. intros k Hk%pack_permuter_elem_of.
      by unfold rank in Hk. }
  change (nth_Z s <$> permuter) with s_permute. simpl app.
  unfold py_del_slice. rewrite pack_s_permute_length.
  rewrite !py_clip_in_range by lia.
  destruct (Nat.ltb_spec (Z.to_nat pretarget) (Z.to_nat (pretarget + 2))); [|lia].
  unfold py_insert.
  assert (length (take (Z.to_nat pretarget) s_permute) = Z.to_nat pretarget)
    as Hlen by (rewrite length_take, pack_s_permute_length; lia).
  rewrite length_app, Hlen, length_drop, pack_s_permute_length.
  rewrite py_clip_in_range by lia.
  rewrite (take_app_length' _ _ (Z.to_nat pretarget)) by done.
  rewrite (drop_app_length' _ _ (Z.to_nat pretarget)) by done.
  replace (Z.to_nat (pretarget + 2)) with (Z.to_nat pretarget + 2)%nat by lia.
  done.
Qed.

Lemma pack_s_permute_source (x : Z) :
  s !! Z.to_nat axis_source = Some x →
  s_permute !! Z.to_nat pretarget = Some x.
Proof using Hsource Htarget Hdistinct.
  intros Hx. pose proof pack_pretarget_range as Hpre.
  unfold pack_s_permute, pack_permuter. rewrite list_lookup_fmap.
  rewrite cyclePerm_spec_moved by lia. simpl.
  unfold nth_Z. by rewrite Hx.
Qed.

Lemma pack_s_permute_target (y : Z) :
  s !! Z.to_nat t = Some y →
  s_permute !! S (Z.to_nat pretarget) = Some y.
Proof using Hsource Htarget Hdistinct.
  intros Hy. pose proof pack_target_range as Ht.
  unfold pack_s_permute, pack_permuter. rewrite list_lookup_fmap.
  rewrite (cyclePerm_spec_next r axis_source pretarget t) by done. simpl.
  unfold nth_Z. by rewrite Hy.
Qed.

Lemma pack_s_permute_size : size_of s_permute = size_of s.
Proof using Hsource.
  unfold pack_s_permute. rewrite (size_of_Permutation _ (nth_Z s <$> seqZ 0 r)).
  - unfold rank. by rewrite nth_Z_identity.
  - by rewrite pack_permuter_Permutation.
Qed.

(** For a source given as a nonnegative index and a target that
    normalizes to another axis, the shape handed to the reshape has rank
    [r - 1]; with the wildcard standing for the product of the sizes of
    the source and target axes it has the number of elements of the
    input, and with positive sizes it is the shape of the result. *)
Lemma pack_to_axis_plan (x y : Z) :
  axis_target ≠ axis_source →
  s !! Z.to_nat axis_source = Some x → s !! Z.to_nat t = Some y →
  let pre := take (Z.to_nat pretarget) s_permute in
  let post := drop (Z.to_nat pretarget + 2) s_permute in
  snd (run (pack_to_axis arr axis_source axis_target))
  = [Transpose arr permuter; Reshape (Array s_permute) (pre ++ wildcard :: post)]
  ∧ Z.of_nat (length (pre ++ wildcard :: post)) = r - 1
  ∧ size_of (pre ++ (x * y) :: post) = size_of s
  ∧ (Forall (fun d => 0 < d) s →
     fst (run (pack_to_axis arr axis_source axis_target))
     = Ok (Array (pre ++ (x * y) :: post))).
Proof using Hsource Htarget Hdistinct.
  intros Hraw Hx Hy pre post. pose proof pack_pretarget_range as Hpre.
  rewrite pack_to_axis_normalized by done. unfold lib_reshape. simpl fst. simpl snd.
  fold pre. fold post.
  pose proof (size_of_split2 s_permute _ x y
                (pack_s_permute_source x Hx) (pack_s_permute_target y Hy)) as Hsplit.
  replace (S (S (Z.to_nat pretarget))) with (Z.to_nat pretarget + 2)%nat in Hsplit by lia.
  fold pre in Hsplit. fold post in Hsplit.
  split_and!.
  - done.
  - unfold pre, post.
    rewrite length_app, length_cons, length_take, length_drop, pack_s_permute_length.
    lia.
  - rewrite size_of_app, size_of_cons, <- pack_s_permute_size, Hsplit, size_of_app.
    lia.
  - intros Hpos.
    assert (Forall (fun d => 0 < d) s_permute) as Hpos'.
    { apply Forall_forall. intros d [k [-> Hk]]%list_elem_of_fmap.
      apply pack_permuter_elem_of in Hk. unfold nth_Z.
      destruct (lookup_lt_is_Some_2 (np_tf_get_shape arr) (Z.to_nat k)) as [v Hv];
        [unfold rank in Hk; lia|].
      rewrite Hv. simpl. by eapply Forall_lookup_1 in Hv. }
    apply reshape_shape_infer.
    + by apply Forall_take.
    + by apply Forall_drop.
    + simpl. rewrite Hsplit. lia.
Qed.
End pack.

(** * Further properties of the operations *)

#[local] Set Warnings "-clear-no-such-hyp".

(** ** Failure of the index normalizer and of list indexing *)

Lemma pidx_Raise_inv (r idx : Z) (e : exn) :
  pidx r idx = Raise e →
  (r < 1 ∧ e = InvalidRank) ∨
  (1 ≤ r ∧ ¬ (- r ≤ idx ≤ r - 1) ∧ e = IndexOutOfBounds).
Proof.
  unfold pidx. destruct (Z.ltb_spec r 1); [intros [= <-]; by left|].
  destruct (Z.leb_spec (- r) idx), (Z.leb_spec idx (r - 1)); simpl;
    try (intros [= <-]; right; split_and!; [done | lia | done]).
  by destruct (idx <? 0).
Qed.

Lemma pidx_nonneg (r n : Z) : 0 ≤ n ≤ r - 1 → pidx r n = Ok n.
Proof.
  intros Hn. rewrite pidx_in_range by lia. by destruct (Z.ltb_spec n 0); [lia|].
Qed.

Lemma py_index_ge (len i : Z) : 0 ≤ i → len ≤ i → py_index len i = None.
Proof.
  intros Hi Hlen. unfold py_index. destruct (Z.ltb_spec i 0); [lia|].
  destruct (Z.leb_spec 0 i); [|lia]. by destruct (Z.ltb_spec i len); [lia|].
Qed.

(** ** The swap permutation: failure, bijection, symmetry *)

Lemma get_swapping_permutation_Ok_inv (r idx0 idx1 : Z) (p : list Z) :
  get_swapping_permutation r idx0 idx1 = Ok p →
  0 ≤ idx0 ≤ r - 1 ∧ 0 ≤ idx1 ≤ r - 1 ∧ p = swapPerm_spec r idx0 idx1.
Proof.
  intros Hp.
  assert (0 ≤ idx0 ∧ 0 ≤ idx1) as [H0 H1].
  { revert Hp. unfold get_swapping_permutation, py_assert.
    destruct (Z.leb_spec 0 idx0); [|done].
    by destruct (Z.leb_spec 0 idx1). }
  assert (idx0 < r ∧ idx1 < r) as [H0' H1'].
  { revert Hp. unfold get_swapping_permutation, py_assert.
    destruct (Z.leb_spec 0 idx0); [|lia].
    destruct (Z.leb_spec 0 idx1); [|lia]. simpl.
    unfold py_setitem. rewrite py_range_length.
    destruct (decide (idx0 < r)) as [Hlt0|Hge0];
      [|by rewrite py_index_ge by lia].
    rewrite py_index_in_range by lia. simpl.
    rewrite length_insert, py_range_length.
    destruct (decide (idx1 < r)) as [Hlt1|Hge1];
      [done | by rewrite py_index_ge by lia]. }
  split_and!; try lia.
  rewrite get_swapping_permutation_normalized in Hp by lia. by injection Hp.
Qed.

Lemma swap_at_comm (i j k : Z) : swap_at i j k = swap_at j i k.
Proof.
  unfold swap_at. destruct (Z.eqb_spec k j), (Z.eqb_spec k i); congruence.
Qed.

Lemma swapPerm_spec_fmap (r idx0 idx1 : Z) :
  0 ≤ idx0 ≤ r - 1 → 0 ≤ idx1 ≤ r - 1 →
  swapPerm_spec r idx0 idx1 = swap_at idx0 idx1 <$> seqZ 0 r.
Proof.
  intros H0 H1. apply list_eq. intros m. rewrite list_lookup_fmap.
  destruct (decide (Z.of_nat m < r)) as [Hm|Hm].
  - rewrite swapPerm_spec_lookup, lookup_seqZ_lt by done. done.
  - rewrite lookup_seqZ_ge by lia. apply lookup_ge_None_2.
    rewrite swapPerm_spec_length. lia.
Qed.

Lemma swapPerm_spec_comm (r idx0 idx1 : Z) :
  0 ≤ idx0 ≤ r - 1 → 0 ≤ idx1 ≤ r - 1 →
  swapPerm_spec r idx0 idx1 = swapPerm_spec r idx1 idx0.
Proof.
  intros H0 H1. rewrite !swapPerm_spec_fmap by done.
  apply list_fmap_ext. intros _ k _. apply swap_at_comm.
Qed.

Lemma swapPerm_spec_Permutation (r idx0 idx1 : Z) :
  0 ≤ idx0 ≤ r - 1 → 0 ≤ idx1 ≤ r - 1 →
  swapPerm_spec r idx0 idx1 ≡ₚ seqZ 0 r.
Proof.
  intros H0 H1. apply NoDup_Permutation.
  - rewrite swapPerm_spec_fmap by done.
    apply NoDup_fmap_2_strong; [|apply NoDup_seqZ].
    intros x y _ _ Heq.
    by rewrite <- (swap_at_involutive idx0 idx1 x), Heq, swap_at_involutive.
  - apply NoDup_seqZ.
  - intros k. rewrite swapPerm_spec_elem_of by done. rewrite elem_of_seqZ. lia.
Qed.

(** X1: the swap builder returns a permutation exactly when both indices
    are in [0, r-1]; a negative index fails the assertion (although Python
    would index from the end), and a nonnegative index beyond the rank
    fails in the list assignment. *)
Theorem get_swapping_permutation_defined (r idx0 idx1 : Z) :
  ((∃ p, get_swapping_permutation r idx0 idx1 = Ok p)
   ↔ 0 ≤ idx0 ≤ r - 1 ∧ 0 ≤ idx1 ≤ r - 1) ∧
  (get_swapping_permutation r idx0 idx1 = Raise (AssertionError None)
   ↔ idx0 < 0 ∨ idx1 < 0) ∧
  (get_swapping_permutation r idx0 idx1
   = Raise (IndexError "list assignment index out of range")
   ↔ 0 ≤ idx0 ∧ 0 ≤ idx1 ∧ (r ≤ idx0 ∨ r ≤ idx1)).
Proof.
  split.
  { split.
    - intros [p Hp]. apply get_swapping_permutation_Ok_inv in Hp. lia.
    - intros [H0 H1]. eexists. by apply get_swapping_permutation_normalized. }
  destruct (decide (0 ≤ idx0 ≤ r - 1 ∧ 0 ≤ idx1 ≤ r - 1)) as [[H0 H1]|Hout].
  { rewrite get_swapping_permutation_normalized by done.
    split; (split; [done | lia]). }
  unfold get_swapping_permutation, py_assert.
  destruct (Z.leb_spec 0 idx0); [|split; (split; [first [done | intros _; lia] | first [done | lia]])].
  destruct (Z.leb_spec 0 idx1); [|split; (split; [first [done | intros _; lia] | first [done | lia]])].
  simpl. unfold py_setitem. rewrite py_range_length.
  destruct (decide (idx0 < r)) as [Hlt0|Hge0].
  - rewrite py_index_in_range by lia. simpl.
    rewrite length_insert, py_range_length, py_index_ge by lia. simpl.
    split; (split; [first [done | intros _; lia] | first [done | lia]]).
  - rewrite py_index_ge by lia. simpl.
    split; (split; [first [done | intros _; lia] | first [done | lia]]).
Qed.

(** X2: whenever the swap builder returns, its result is a bijection on
    [0 .. r-1] of length [r] that sends [idx0] to [idx1], [idx1] to [idx0]
    and every other axis to itself, and the builder returns the same
    permutation with its two indices exchanged. *)
Theorem get_swapping_permutation_bijection (r idx0 idx1 : Z) (p : list Z) :
  get_swapping_permutation r idx0 idx1 = Ok p →
  p ≡ₚ seqZ 0 r ∧ length p = Z.to_nat r ∧
  p !! Z.to_nat idx0 = Some idx1 ∧ p !! Z.to_nat idx1 = Some idx0 ∧
  (∀ k, 0 ≤ k < r → k ≠ idx0 → k ≠ idx1 → p !! Z.to_nat k = Some k) ∧
  get_swapping_permutation r idx1 idx0 = Ok p.
Proof.
  intros (H0 & H1 & ->)%get_swapping_permutation_Ok_inv. split_and!.
  - by apply swapPerm_spec_Permutation.
  - apply swapPerm_spec_length.
  - rewrite swapPerm_spec_lookup by lia. f_equal. unfold swap_at.
    rewrite Z2Nat.id by lia. destruct (Z.eqb_spec idx0 idx1); [done|].
    by rewrite Z.eqb_refl.
  - rewrite swapPerm_spec_lookup by lia. f_equal. unfold swap_at.
    rewrite Z2Nat.id by lia. by rewrite Z.eqb_refl.
  - intros k Hk Hk0 Hk1. rewrite swapPerm_spec_lookup by lia. f_equal.
    unfold swap_at. rewrite Z2Nat.id by lia.
    destruct (Z.eqb_spec k idx1); [done|]. by destruct (Z.eqb_spec k idx0).
  - rewrite get_swapping_permutation_normalized by done.
    f_equal. by apply swapPerm_spec_comm.
Qed.

Lemma get_swapping_permutation_bijection_witness :
  [0; 3; 2; 1] ≡ₚ seqZ 0 4 ∧ get_swapping_permutation 4 3 1 = Ok [0; 3; 2; 1].
Proof.
  destruct (get_swapping_permutation_bijection 4 1 3 [0; 3; 2; 1])
    as (Hperm & _ & _ & _ & _ & Hsym); [reflexivity|].
  split; [exact Hperm | exact Hsym].
Defined.

(** ** swap_axes: symmetry, result shape, failure *)

Lemma swap_axes_Raise_l (arr : array) (axis0 axis1 : Z) (e : exn) (log : list call) :
  pidx (rank arr) axis0 = Raise e →
  swap_axes arr axis0 axis1 log = (Raise e, log).
Proof. intros E. unfold swap_axes, mbind, prog_bind, pure. by rewrite E. Qed.

Lemma swap_axes_Raise_r (arr : array) (axis0 axis1 n0 : Z) (e : exn) (log : list call) :
  pidx (rank arr) axis0 = Ok n0 → pidx (rank arr) axis1 = Raise e →
  swap_axes arr axis0 axis1 log = (Raise e, log).
Proof. intros E0 E1. unfold swap_axes, mbind, prog_bind, pure. by rewrite E0, E1. Qed.

(** X3: [swap_axes] is symmetric in its two axis arguments, for every
    array and every pair of indices: the same result or the same error, and
    the same call of the transpose. *)
Theorem swap_axes_symmetric (arr : array) (axis0 axis1 : Z) :
  run (swap_axes arr axis0 axis1) = run (swap_axes arr axis1 axis0).
Proof.
  unfold run.
  destruct (pidx (rank arr) axis0) as [n0|e0] eqn:E0,
           (pidx (rank arr) axis1) as [n1|e1] eqn:E1.
  - rewrite (swap_axes_normalized arr axis0 axis1 n0 n1) by done.
    rewrite (swap_axes_normalized arr axis1 axis0 n1 n0) by done.
    apply pidx_Ok_inv in E0 as (_ & _ & H0 & _).
    apply pidx_Ok_inv in E1 as (_ & _ & H1 & _).
    simpl. by rewrite (swapPerm_spec_comm _ n0 n1).
  - rewrite (swap_axes_Raise_r arr axis0 axis1 n0 e1) by done.
    by rewrite (swap_axes_Raise_l arr axis1 axis0 e1).
  - rewrite (swap_axes_Raise_l arr axis0 axis1 e0) by done.
    by rewrite (swap_axes_Raise_r arr axis1 axis0 n1 e0).
  - rewrite (swap_axes_Raise_l arr axis0 axis1 e0) by done.
    rewrite (swap_axes_Raise_l arr axis1 axis0 e1) by done.
    apply pidx_Raise_inv in E0. apply pidx_Raise_inv in E1.
    destruct E0 as [[? ->]|(? & ? & ->)], E1 as [[? ->]|(? & ? & ->)];
      (done || lia).
Qed.

Lemma swap_gather (s : list Z) (n0 n1 : Z) :
  0 ≤ n0 < Z.of_nat (length s) → 0 ≤ n1 < Z.of_nat (length s) →
  nth_Z s <$> swapPerm_spec (Z.of_nat (length s)) n0 n1
  = <[Z.to_nat n1 := nth_Z s n0]> (<[Z.to_nat n0 := nth_Z s n1]> s).
Proof.
  intros H0 H1. apply list_eq. intros m. rewrite list_lookup_fmap.
  destruct (decide (m < length s)%nat) as [Hm|Hm].
  - rewrite swapPerm_spec_lookup by lia. simpl. unfold swap_at.
    destruct (Z.eqb_spec (Z.of_nat m) n1) as [E1|E1].
    { replace (Z.to_nat n1) with m by lia.
      by rewrite list_lookup_insert_eq by (rewrite length_insert; lia). }
    rewrite list_lookup_insert_ne by lia.
    destruct (Z.eqb_spec (Z.of_nat m) n0) as [E0|E0].
    { replace (Z.to_nat n0) with m by lia.
      by rewrite list_lookup_insert_eq by lia. }
    rewrite list_lookup_insert_ne by lia.
    unfold nth_Z. rewrite Nat2Z.id.
    by destruct (lookup_lt_is_Some_2 s m) as [x ->].
  - rewrite (lookup_ge_None_2 (swapPerm_spec _ _ _))
      by (rewrite swapPerm_spec_length; lia).
    symmetry. apply lookup_ge_None_2. rewrite !length_insert. lia.
Qed.

(** X4: for raw axes in [-r, r-1], [swap_axes] makes one call of the
    transpose and returns the shape of the input with the sizes at the two
    normalized axes exchanged, every other size in place. *)
Theorem swap_axes_shape (arr : array) (axis0 axis1 n0 n1 : Z) :
  pidx (rank arr) axis0 = Ok n0 → pidx (rank arr) axis1 = Ok n1 →
  let s := np_tf_get_shape arr in
  run (swap_axes arr axis0 axis1)
  = (Ok (Array (<[Z.to_nat n1 := nth_Z s n0]> (<[Z.to_nat n0 := nth_Z s n1]> s))),
     [Transpose arr (swapPerm_spec (rank arr) n0 n1)]).
Proof.
  intros E0 E1 s. unfold run.
  rewrite (swap_axes_normalized arr axis0 axis1 n0 n1) by done. simpl.
  apply pidx_Ok_inv in E0 as (_ & _ & H0 & _).
  apply pidx_Ok_inv in E1 as (_ & _ & H1 & _).
  unfold rank in *. fold s in H0, H1 |- *.
  rewrite swap_gather by lia. done.
Qed.

Lemma swap_axes_shape_witness :
  run (swap_axes (Array [2; 3; 5; 7]) (-1) 1)
  = (Ok (Array [2; 7; 5; 3]), [Transpose (Array [2; 3; 5; 7]) [0; 3; 2; 1]]).
Proof.
  apply (swap_axes_shape (Array [2; 3; 5; 7]) (-1) 1 3 1); reflexivity.
Defined.

(** X5: [swap_axes] fails exactly when the array has rank 0, with
    [InvalidRank], or an axis is outside [-r, r-1], with [IndexOutOfBounds];
    it then fails before the transpose is called.  Its two assertions on
    the normalized axes never fail. *)
Theorem swap_axes_errors (arr : array) (axis0 axis1 : Z) :
  let r := rank arr in
  let in_range a := - r ≤ a ≤ r - 1 in
  (run (swap_axes arr axis0 axis1) = (Raise InvalidRank, []) ↔ r < 1) ∧
  (run (swap_axes arr axis0 axis1) = (Raise IndexOutOfBounds, [])
   ↔ 1 ≤ r ∧ ¬ (in_range axis0 ∧ in_range axis1)) ∧
  ((∃ arr', fst (run (swap_axes arr axis0 axis1)) = Ok arr')
   ↔ 1 ≤ r ∧ in_range axis0 ∧ in_range axis1) ∧
  (∀ e, fst (run (swap_axes arr axis0 axis1)) = Raise e →
        snd (run (swap_axes arr axis0 axis1)) = []) ∧
  (∀ msg, fst (run (swap_axes arr axis0 axis1)) ≠ Raise (AssertionError msg)).
Proof.
  intros r in_range. unfold in_range, run, InvalidRank, IndexOutOfBounds.
  destruct (pidx (rank arr) axis0) as [n0|e0] eqn:E0.
  - destruct (pidx (rank arr) axis1) as [n1|e1] eqn:E1.
    + rewrite (swap_axes_normalized arr axis0 axis1 n0 n1) by done. simpl.
      apply pidx_Ok_inv in E0 as (Hr & H0 & _).
      apply pidx_Ok_inv in E1 as (_ & H1 & _). fold r in Hr, H0, H1.
      split_and!; naive_solver lia.
    + rewrite (swap_axes_Raise_r arr axis0 axis1 n0 e1) by done. simpl.
      apply pidx_Ok_inv in E0 as (Hr & H0 & _). fold r in Hr, H0.
      apply pidx_Raise_inv in E1 as [[? ->]|(_ & H1 & ->)]; [lia|].
      fold r in H1. unfold IndexOutOfBounds.
      split_and!; naive_solver lia.
  - rewrite (swap_axes_Raise_l arr axis0 axis1 e0) by done. simpl.
    apply pidx_Raise_inv in E0 as [[Hr ->]|(Hr & H0 & ->)]; fold r in Hr.
    + unfold InvalidRank. split_and!; naive_solver lia.
    + fold r in H0. unfold IndexOutOfBounds. split_and!; naive_solver lia.
Qed.

(** ** Moving an entry of a list *)

Lemma insert_at_length {A : Type} (n : nat) (x : A) (l : list A) :
  length (insert_at n x l) = S (length l).
Proof.
  unfold insert_at. rewrite length_app, length_cons, length_take, length_drop. lia.
Qed.

Lemma remove_at_length {A : Type} (n : nat) (l : list A) :
  (n < length l)%nat → length (remove_at n l) = (length l - 1)%nat.
Proof.
  intros Hn. unfold remove_at. rewrite length_app, length_take, length_drop. lia.
Qed.

Lemma insert_at_lookup {A : Type} (n : nat) (x : A) (l : list A) :
  (n ≤ length l)%nat → insert_at n x l !! n = Some x.
Proof.
  intros Hn. unfold insert_at. apply list_lookup_middle.
  rewrite length_take. lia.
Qed.

Lemma remove_at_insert_at {A : Type} (n : nat) (x : A) (l : list A) :
  (n ≤ length l)%nat → remove_at n (insert_at n x l) = l.
Proof.
  intros Hn. unfold remove_at, insert_at.
  assert (n = length (take n l)) as Hlen by (rewrite length_take; lia).
  rewrite (take_app_length' _ _ n) by done.
  replace (take n l ++ x :: drop n l) with ((take n l ++ [x]) ++ drop n l)
    by (by rewrite <- app_assoc).
  rewrite (drop_app_length' _ _ (S n)) by (rewrite length_app; simpl; lia).
  apply take_drop.
Qed.

Lemma insert_at_remove_at {A : Type} (n : nat) (x : A) (l : list A) :
  l !! n = Some x → insert_at n x (remove_at n l) = l.
Proof.
  intros Hx. unfold insert_at. rewrite remove_at_take, remove_at_drop.
  by apply take_drop_middle.
Qed.

Lemma insert_at_remove_at_Permutation {A : Type} (n m : nat) (x : A) (l : list A) :
  l !! n = Some x → insert_at m x (remove_at n l) ≡ₚ l.
Proof.
  intros Hx. unfold insert_at. rewrite <- Permutation_middle, take_drop.
  unfold remove_at. rewrite <- delete_take_drop.
  symmetry. by apply delete_Permutation.
Qed.

(** Gathering a list through the cycle permutation moves the entry at
    [n0] to position [n1]. *)
Lemma gather_cycle (l : list Z) (n0 n1 : Z) :
  nth_Z l <$> cyclePerm_spec (Z.of_nat (length l)) n0 n1
  = insert_at (Z.to_nat n1) (nth_Z l n0) (remove_at (Z.to_nat n0) l).
Proof.
  unfold cyclePerm_spec, insert_at, remove_at.
  rewrite fmap_app, fmap_cons, fmap_take, fmap_drop.
  by rewrite fmap_app, fmap_take, fmap_drop, nth_Z_identity.
Qed.

Lemma nth_Z_lookup (l : list Z) (n x : Z) :
  l !! Z.to_nat n = Some x → nth_Z l n = x.
Proof. intros Hx. unfold nth_Z. by rewrite Hx. Qed.

(** ** popinsert_axes *)

Lemma popinsert_axes_normalized
    (arr : array) (axis0 axis1 n0 n1 : Z) (log : list call) :
  pidx (rank arr) axis0 = Ok n0 → pidx (rank arr) axis1 = Ok n1 →
  let s := np_tf_get_shape arr in
  popinsert_axes arr axis0 axis1 log
  = (Ok (Array (insert_at (Z.to_nat n1) (nth_Z s n0) (remove_at (Z.to_nat n0) s))),
     log ++ [Transpose arr (cyclePerm_spec (rank arr) n0 n1)]).
Proof.
  intros E0 E1 s. unfold popinsert_axes, mbind, prog_bind, pure, py_assert.
  rewrite (get_popinsert_permutation_normalized _ _ _ _ _ E0 E1).
  apply pidx_Ok_inv in E0 as (Hr & H0 & Hn0 & _).
  apply pidx_Ok_inv in E1 as (_ & H1 & Hn1 & _).
  destruct (Z.leb_spec (- rank arr) axis0); [|lia].
  destruct (Z.leb_spec axis0 (rank arr - 1)); [|lia].
  destruct (Z.leb_spec (- rank arr) axis1); [|lia].
  destruct (Z.leb_spec axis1 (rank arr - 1)); [|lia].
  simpl andb. cbv iota. unfold lib_transpose.
  pose proof (cyclePerm_spec_Permutation (rank arr) n0 n1 Hn0) as Hperm.
  rewrite transpose_shape_permutation.
  - unfold rank. by rewrite gather_cycle.
  - rewrite Hperm, length_seqZ. unfold rank. lia.
  - intros k. rewrite Hperm, elem_of_seqZ. lia.
Qed.

(** X6: for raw axes in [-r, r-1], [popinsert_axes] makes one call of the
    transpose, with the cycle permutation, and returns the shape of the
    input with the size of the source axis moved to the normalized position
    [axis1]: that size sits at [axis1], the other sizes keep their order,
    and the rank and the number of elements are those of the input. *)
Theorem popinsert_axes_shape (arr : array) (axis0 axis1 n0 n1 x : Z) :
  pidx (rank arr) axis0 = Ok n0 → pidx (rank arr) axis1 = Ok n1 →
  np_tf_get_shape arr !! Z.to_nat n0 = Some x →
  let s := np_tf_get_shape arr in
  let s' := insert_at (Z.to_nat n1) x (remove_at (Z.to_nat n0) s) in
  run (popinsert_axes arr axis0 axis1)
  = (Ok (Array s'), [Transpose arr (cyclePerm_spec (rank arr) n0 n1)]) ∧
  s' !! Z.to_nat n1 = Some x ∧
  delete (Z.to_nat n1) s' = delete (Z.to_nat n0) s ∧
  length s' = length s ∧ s' ≡ₚ s ∧ size_of s' = size_of s.
Proof.
  intros E0 E1 Hx s s'.
  pose proof (insert_at_remove_at_Permutation _ (Z.to_nat n1) _ _ Hx) as Hperm.
  fold s in Hperm. fold s' in Hperm.
  assert (Z.to_nat n0 < length s)%nat as Hlt0 by (by eapply lookup_lt_Some).
  assert (Z.to_nat n1 ≤ length (remove_at (Z.to_nat n0) s))%nat as Hle1.
  { rewrite remove_at_length by done.
    apply pidx_Ok_inv in E1 as (_ & _ & Hn1 & _). unfold rank in Hn1. fold s in Hn1. lia. }
  split_and!.
  - unfold run. rewrite (popinsert_axes_normalized arr axis0 axis1 n0 n1) by done.
    by rewrite (nth_Z_lookup _ _ _ Hx).
  - by apply insert_at_lookup.
  - rewrite !delete_take_drop. fold (remove_at (Z.to_nat n1) s').
    unfold s'. by rewrite remove_at_insert_at.
  - by rewrite Hperm.
  - done.
  - by apply size_of_Permutation.
Qed.

Lemma popinsert_axes_shape_witness :
  run (popinsert_axes (Array [2; 3; 5; 7]) 1 (-1))
  = (Ok (Array [2; 5; 7; 3]), [Transpose (Array [2; 3; 5; 7]) [0; 2; 3; 1]]).
Proof.
  destruct (popinsert_axes_shape (Array [2; 3; 5; 7]) 1 (-1) 1 3 3)
    as (Hrun & _); [reflexivity | reflexivity | reflexivity |].
  exact Hrun.
Defined.

(** X7: [popinsert_axes] succeeds exactly when both raw axes are in
    [-r, r-1]; otherwise, and so for every array of rank 0, it fails with
    its own assertion before the transpose is called.  The normalizer it
    calls afterwards never fails. *)
Theorem popinsert_axes_errors (arr : array) (axis0 axis1 : Z) :
  let r := rank arr in
  let in_range a := - r ≤ a ≤ r - 1 in
  (run (popinsert_axes arr axis0 axis1)
   = (Raise (AssertionError (Some "rank oob")), [])
   ↔ ¬ (in_range axis0 ∧ in_range axis1)) ∧
  ((∃ arr', fst (run (popinsert_axes arr axis0 axis1)) = Ok arr')
   ↔ in_range axis0 ∧ in_range axis1).
Proof.
  intros r in_range. unfold in_range.
  destruct (decide (- r ≤ axis0 ≤ r - 1 ∧ - r ≤ axis1 ≤ r - 1)) as [[H0 H1]|Hout].
  - assert (1 ≤ r) as Hr by lia.
    pose proof (pidx_in_range r axis0 Hr H0) as E0.
    pose proof (pidx_in_range r axis1 Hr H1) as E1.
    unfold run. rewrite (popinsert_axes_normalized arr axis0 axis1 _ _ [] E0 E1).
    simpl. split; [split; [done | tauto] | split; [done | eauto]].
  - assert (run (popinsert_axes arr axis0 axis1)
            = (Raise (AssertionError (Some "rank oob")), [])) as ->.
    { unfold run, popinsert_axes, mbind, prog_bind, pure, py_assert. fold r.
      destruct (Z.leb_spec (- r) axis0), (Z.leb_spec axis0 (r - 1)); simpl; try done.
      destruct (Z.leb_spec (- r) axis1), (Z.leb_spec axis1 (r - 1)); simpl; try done.
      lia. }
    simpl. split; [done | split; [by intros [? ?] | done]].
Qed.

(** X8: moving an axis and then moving it back restores the array: for raw
    axes in [-r, r-1], [popinsert_axes] from [axis0] to [axis1] followed by
    [popinsert_axes] from [axis1] to [axis0] returns the input's shape. *)
Theorem popinsert_axes_inverse (arr : array) (axis0 axis1 : Z) :
  - rank arr ≤ axis0 ≤ rank arr - 1 → - rank arr ≤ axis1 ≤ rank arr - 1 →
  fst (run (arr' ← popinsert_axes arr axis0 axis1; popinsert_axes arr' axis1 axis0))
  = Ok arr.
Proof.
  intros H0 H1. assert (1 ≤ rank arr) as Hr by lia.
  pose proof (pidx_in_range _ axis0 Hr H0) as E0.
  pose proof (pidx_in_range _ axis1 Hr H1) as E1.
  set (n0 := if axis0 <? 0 then rank arr + axis0 else axis0) in *.
  set (n1 := if axis1 <? 0 then rank arr + axis1 else axis1) in *.
  assert (0 ≤ n0 ≤ rank arr - 1) as Hn0 by (apply pidx_Ok_inv in E0; lia).
  assert (0 ≤ n1 ≤ rank arr - 1) as Hn1 by (apply pidx_Ok_inv in E1; lia).
  set (s := np_tf_get_shape arr).
  assert (Z.to_nat n0 < length s)%nat as Hlt0 by (unfold rank in Hn0; fold s in Hn0; lia).
  destruct (lookup_lt_is_Some_2 s (Z.to_nat n0) Hlt0) as [x Hx].
  assert (Z.to_nat n1 ≤ length (remove_at (Z.to_nat n0) s))%nat as Hle1
    by (rewrite remove_at_length by done; unfold rank in Hn1; fold s in Hn1; lia).
  unfold run, mbind at 1, prog_bind at 1.
  rewrite (popinsert_axes_normalized arr axis0 axis1 n0 n1) by done.
  fold s. rewrite (nth_Z_lookup _ _ _ Hx).
  set (arr' := Array _).
  assert (rank arr' = rank arr) as Hrank'.
  { unfold rank, arr'. simpl. rewrite insert_at_length, remove_at_length by done.
    fold s. lia. }
  rewrite (popinsert_axes_normalized arr' axis1 axis0 n1 n0)
    by (by rewrite Hrank').
  simpl. unfold arr'. simpl.
  rewrite (nth_Z_lookup _ n1 x) by (by apply insert_at_lookup).
  rewrite remove_at_insert_at by done.
  rewrite insert_at_remove_at by done. by destruct arr.
Qed.

Lemma popinsert_axes_inverse_witness :
  fst (run (arr' ← popinsert_axes (Array [2; 3; 5; 7]) (-1) 1;
            popinsert_axes arr' 1 (-1)))
  = Ok (Array [2; 3; 5; 7]).
Proof.
  apply (popinsert_axes_inverse (Array [2; 3; 5; 7]) (-1) 1);
    unfold rank; simpl; lia.
Defined.

(** ** pack_to_axis: every run that passes the assertions *)

Lemma pack_target_in_range (r axis_target : Z) :
  - r + 1 ≤ axis_target ≤ r - 1 → 0 ≤ pack_target r axis_target ≤ r - 1.
Proof. intros H. unfold pack_target. destruct (Z.ltb_spec axis_target 0); lia. Qed.

Lemma pack_pretarget_bounds (r axis_source axis_target : Z) :
  - r + 1 ≤ axis_target ≤ r - 1 →
  -1 ≤ pack_pretarget r axis_source axis_target ≤ r - 1.
Proof.
  intros H%pack_target_in_range. unfold pack_pretarget.
  destruct (axis_source <? pack_target r axis_target); simpl; lia.
Qed.

(** The run of [pack_to_axis] on arguments that pass its three assertions,
    up to the call of the reshape primitive: [n0] and [p1] are the
    normalized source and the normalized position before the target. *)
Lemma pack_to_axis_steps (arr : array) (axis_source axis_target n0 p1 : Z) :
  let r := rank arr in
  let s := np_tf_get_shape arr in
  let pretarget := pack_pretarget r axis_source axis_target in
  axis_target ≠ axis_source → - r + 1 ≤ axis_target ≤ r - 1 →
  pidx r axis_source = Ok n0 → pidx r pretarget = Ok p1 →
  let s_permute := insert_at (Z.to_nat p1) (nth_Z s n0) (remove_at (Z.to_nat n0) s) in
  run (pack_to_axis arr axis_source axis_target)
  = lib_reshape (Array s_permute)
      (py_insert (py_del_slice s_permute pretarget (pretarget + 2)) pretarget (-1))
      [Transpose arr (cyclePerm_spec r n0 p1)].
Proof.
  intros r s pretarget Hraw Htarget E0 E1 s_permute.
  pose proof E0 as (Hr & H0 & Hn0 & _)%pidx_Ok_inv.
  unfold run, pack_to_axis, mbind at 1 2 3, prog_bind at 1 2 3, pure, py_assert.
  fold r.
  destruct (Z.leb_spec (- r) axis_source); [|lia].
  destruct (Z.leb_spec axis_source (r - 1)); [|lia].
  destruct (Z.eqb_spec axis_target axis_source); [done|].
  destruct (Z.leb_spec (- r + 1) axis_target); [|lia].
  destruct (Z.leb_spec axis_target (r - 1)); [|lia].
  simpl andb. simpl negb. cbv iota zeta.
  replace (if axis_target <? 0 then r - Z.abs axis_target else axis_target)
    with (pack_target r axis_target)
    by (unfold pack_target; destruct (Z.ltb_spec axis_target 0); lia).
  change (pack_target r axis_target
          - Z.b2z (axis_source <? pack_target r axis_target)) with pretarget.
  unfold mbind, prog_bind.
  rewrite (popinsert_axes_normalized arr axis_source pretarget n0 p1) by done.
  simpl app. fold r. rewrite (get_popinsert_permutation_normalized _ _ _ _ _ E0 E1).
  pose proof (cyclePerm_spec_Permutation r n0 p1 Hn0) as Hperm.
  rewrite np_take_in_range.
  2:{ apply Forall_forall. intros k Hk. rewrite Hperm, elem_of_seqZ in Hk.
      unfold r, rank in Hk. lia. }
  unfold r, rank. rewrite gather_cycle. done.
Qed.

(** X9: the three assertions of [pack_to_axis] are checked in the order
    source range, identical axes, target range, on the raw indices; each
    failure happens before any library call, and the library is called
    exactly when all three pass.  In particular a target [-r] is refused
    although it names axis 0. *)
Theorem pack_to_axis_assertions (arr : array) (axis_source axis_target : Z) :
  let r := rank arr in
  let source_ok := - r ≤ axis_source ≤ r - 1 in
  let target_ok := - r + 1 ≤ axis_target ≤ r - 1 in
  let out := run (pack_to_axis arr axis_source axis_target) in
  (out = (Raise (AssertionError (Some "axis source oob")), []) ↔ ¬ source_ok) ∧
  (out = (Raise IdenticalAxesError, []) ↔ source_ok ∧ axis_target = axis_source) ∧
  (out = (Raise (AssertionError (Some "axis target oob")), [])
   ↔ source_ok ∧ axis_target ≠ axis_source ∧ ¬ target_ok) ∧
  (snd out = [] ↔ ¬ (source_ok ∧ axis_target ≠ axis_source ∧ target_ok)).
Proof.
  intros r source_ok target_ok out. unfold source_ok, target_ok, out.
  destruct (decide ((- r ≤ axis_source ≤ r - 1)
                    ∧ axis_target ≠ axis_source
                    ∧ - r + 1 ≤ axis_target ≤ r - 1)) as [(Hs & Hne & Ht)|Hfail].
  - assert (1 ≤ r) as Hr by lia.
    pose proof (pack_pretarget_bounds r axis_source axis_target Ht) as Hpre.
    rewrite (pack_to_axis_steps arr axis_source axis_target _ _ Hne Ht
               (pidx_in_range _ _ Hr Hs)
               (pidx_in_range r (pack_pretarget r axis_source axis_target) Hr
                  ltac:(lia))).
    unfold lib_reshape, IdenticalAxesError. simpl.
    split_and!; naive_solver.
  - assert (run (pack_to_axis arr axis_source axis_target)
            = (Raise (AssertionError (Some
                 (if decide (- r ≤ axis_source ≤ r - 1)
                  then if decide (axis_target = axis_source)
                       then "identical axes" else "axis target oob"
                  else "axis source oob"))), [])) as ->.
    { unfold run, pack_to_axis, mbind, prog_bind, pure, py_assert. fold r.
      destruct (Z.leb_spec (- r) axis_source), (Z.leb_spec axis_source (r - 1));
        simpl; try (by rewrite decide_False by lia).
      rewrite decide_True by lia.
      destruct (Z.eqb_spec axis_target axis_source); simpl;
        [by rewrite decide_True by done|].
      rewrite decide_False by done.
      destruct (Z.leb_spec (- r + 1) axis_target),
               (Z.leb_spec axis_target (r - 1)); simpl; try done.
      lia. }
    unfold IdenticalAxesError. simpl.
    repeat case_decide; split_and!; naive_solver.
Qed.

(** X10: once the three assertions pass, nothing but the reshape can fail:
    [pack_to_axis] calls the transpose with a bijection on [0 .. r-1], then
    the reshape on the transposed array, whose shape is a rearrangement of
    the input's, and returns what the reshape returns. *)
Theorem pack_to_axis_calls (arr : array) (axis_source axis_target : Z) :
  - rank arr ≤ axis_source ≤ rank arr - 1 →
  axis_target ≠ axis_source →
  - rank arr + 1 ≤ axis_target ≤ rank arr - 1 →
  ∃ permuter cycled s_permute,
    run (pack_to_axis arr axis_source axis_target)
    = (reshape_shape cycled s_permute,
       [Transpose arr permuter; Reshape cycled s_permute]) ∧
    permuter ≡ₚ seqZ 0 (rank arr) ∧
    transpose_shape arr permuter = Ok cycled ∧
    np_tf_get_shape cycled ≡ₚ np_tf_get_shape arr.
Proof.
  intros Hs Hne Ht. assert (1 ≤ rank arr) as Hr by lia.
  pose proof (pack_pretarget_bounds (rank arr) axis_source axis_target Ht) as Hpre.
  set (pretarget := pack_pretarget (rank arr) axis_source axis_target) in *.
  pose proof (pidx_in_range _ _ Hr Hs) as E0.
  assert (- rank arr ≤ pretarget ≤ rank arr - 1) as Hpre' by lia.
  pose proof (pidx_in_range _ _ Hr Hpre') as E1.
  set (n0 := if axis_source <? 0 then rank arr + axis_source else axis_source) in *.
  set (p1 := if pretarget <? 0 then rank arr + pretarget else pretarget) in *.
  assert (0 ≤ n0 ≤ rank arr - 1) as Hn0 by (apply pidx_Ok_inv in E0; lia).
  pose proof (cyclePerm_spec_Permutation (rank arr) n0 p1 Hn0) as Hperm.
  set (s := np_tf_get_shape arr).
  assert (Z.to_nat n0 < length s)%nat as Hlt by (unfold rank in Hn0; fold s in Hn0; lia).
  destruct (lookup_lt_is_Some_2 s _ Hlt) as [x Hx].
  eexists _, _, _. split_and!.
  - rewrite (pack_to_axis_steps arr axis_source axis_target n0 p1) by done.
    unfold lib_reshape. simpl app. reflexivity.
  - done.
  - rewrite transpose_shape_permutation.
    + unfold rank. by rewrite gather_cycle.
    + rewrite Hperm, length_seqZ. unfold rank. lia.
    + intros k. rewrite Hperm, elem_of_seqZ. lia.
  - simpl. fold s. rewrite (nth_Z_lookup _ _ _ Hx).
    by apply insert_at_remove_at_Permutation.
Qed.

Lemma pack_to_axis_calls_witness :
  ∃ permuter cycled s_permute,
    run (pack_to_axis (Array [2; 3; 5]) (-1) 1)
    = (reshape_shape cycled s_permute,
       [Transpose (Array [2; 3; 5]) permuter; Reshape cycled s_permute]) ∧
    permuter ≡ₚ seqZ 0 3 ∧
    transpose_shape (Array [2; 3; 5]) permuter = Ok cycled ∧
    np_tf_get_shape cycled ≡ₚ [2; 3; 5].
Proof.
  apply (pack_to_axis_calls (Array [2; 3; 5]) (-1) 1);
    [unfold rank; simpl; lia | lia | unfold rank; simpl; lia].
Defined.

(** ** pack_to_axis: the merged shape *)

Lemma remove_at_delete {A : Type} (n : nat) (l : list A) : remove_at n l = delete n l.
Proof. unfold remove_at. by rewrite delete_take_drop. Qed.

Lemma size_of_insert (l : list Z) (n : nat) (y v : Z) :
  l !! n = Some y → size_of (<[n := v]> l) * y = v * size_of l.
Proof.
  intros Hy. pose proof (lookup_lt_Some _ _ _ Hy) as Hn.
  rewrite insert_take_drop by done.
  rewrite <- (take_drop_middle l n y Hy) at 3.
  rewrite !size_of_app, !size_of_cons. lia.
Qed.

(** The run of [pack_to_axis] whenever the position before the target
    that it computes lies in [0, r-2]: the shape handed to the reshape is
    the input's shape without the source axis, with the wildcard at that
    position. *)
Lemma pack_to_axis_at (arr : array) (axis_source axis_target n0 x : Z) :
  let r := rank arr in
  let s := np_tf_get_shape arr in
  let pretarget := pack_pretarget r axis_source axis_target in
  let rest := remove_at (Z.to_nat n0) s in
  axis_target ≠ axis_source → - r + 1 ≤ axis_target ≤ r - 1 →
  pidx r axis_source = Ok n0 → 0 ≤ pretarget ≤ r - 2 →
  s !! Z.to_nat n0 = Some x →
  run (pack_to_axis arr axis_source axis_target)
  = lib_reshape (Array (insert_at (Z.to_nat pretarget) x rest))
      (<[Z.to_nat pretarget := wildcard]> rest)
      [Transpose arr (cyclePerm_spec r n0 pretarget)].
Proof.
  intros r s pretarget rest Hraw Htarget E0 Hpre Hx.
  pose proof E0 as (Hr & H0 & Hn0 & En0)%pidx_Ok_inv.
  assert (length s = Z.to_nat r) as Hlen by (unfold r, rank; fold s; lia).
  assert (length rest = Z.to_nat (r - 1)) as Hrest
    by (unfold rest; rewrite remove_at_length by lia; lia).
  rewrite (pack_to_axis_steps arr axis_source axis_target n0 pretarget);
    try done; [|apply pidx_nonneg; fold r; lia].
  fold r. fold s. fold pretarget. rewrite (nth_Z_lookup _ _ _ Hx). fold rest.
  f_equal.
  set (sp := insert_at (Z.to_nat pretarget) x rest).
  assert (length (take (Z.to_nat pretarget) rest) = Z.to_nat pretarget) as Htake
    by (rewrite length_take; lia).
  assert (take (Z.to_nat pretarget) sp = take (Z.to_nat pretarget) rest) as Etake
    by (unfold sp, insert_at; by rewrite (take_app_length' _ _ (Z.to_nat pretarget))).
  assert (drop (Z.to_nat pretarget + 2) sp = drop (S (Z.to_nat pretarget)) rest)
    as Edrop.
  { unfold sp, insert_at.
    rewrite drop_app_ge by lia. rewrite Htake.
    replace (Z.to_nat pretarget + 2 - Z.to_nat pretarget)%nat with 2%nat by lia.
    simpl. by rewrite drop_drop, Nat.add_1_r. }
  unfold py_del_slice.
  assert (length sp = Z.to_nat r) as Hsp
    by (unfold sp; rewrite insert_at_length; lia).
  rewrite Hsp, !py_clip_in_range by lia.
  destruct (Nat.ltb_spec (Z.to_nat pretarget) (Z.to_nat (pretarget + 2))); [|lia].
  replace (Z.to_nat (pretarget + 2)) with (Z.to_nat pretarget + 2)%nat by lia.
  rewrite Etake, Edrop. unfold py_insert.
  rewrite length_app, Htake, length_drop, Hrest, py_clip_in_range by lia.
  rewrite (take_app_length' _ _ (Z.to_nat pretarget)) by done.
  rewrite (drop_app_length' _ _ (Z.to_nat pretarget)) by done.
  rewrite insert_take_drop by lia. done.
Qed.

(** The run of [pack_to_axis] when the comparison of the raw source with
    the target agrees with that of the normalized source: the source is a
    nonnegative index, or its axis lies before the target axis. *)
Lemma pack_to_axis_merge (arr : array) (axis_source axis_target n0 x y : Z) :
  let r := rank arr in
  let s := np_tf_get_shape arr in
  let t := pack_target r axis_target in
  let pretarget := t - Z.b2z (n0 <? t) in
  let rest := remove_at (Z.to_nat n0) s in
  - r + 1 ≤ axis_target ≤ r - 1 →
  pidx r axis_source = Ok n0 → t ≠ n0 → 0 ≤ axis_source ∨ n0 < t →
  s !! Z.to_nat n0 = Some x → s !! Z.to_nat t = Some y →
  run (pack_to_axis arr axis_source axis_target)
  = lib_reshape (Array (insert_at (Z.to_nat pretarget) x rest))
      (<[Z.to_nat pretarget := wildcard]> rest)
      [Transpose arr (cyclePerm_spec r n0 pretarget)]
  ∧ 0 ≤ pretarget ≤ r - 2
  ∧ length rest = Z.to_nat (r - 1)
  ∧ rest !! Z.to_nat pretarget = Some y.
Proof.
  intros r s t pretarget rest Htarget E0 Hne Hfwd Hx Hy.
  pose proof E0 as (Hr & H0 & Hn0 & En0)%pidx_Ok_inv.
  pose proof (pack_target_in_range r axis_target Htarget) as Ht. fold t in Ht.
  assert (pack_pretarget r axis_source axis_target = pretarget) as Epre.
  { unfold pack_pretarget, pretarget. fold t. do 2 f_equal.
    destruct (Z.ltb_spec axis_source 0);
      destruct (Z.ltb_spec axis_source t), (Z.ltb_spec n0 t); (done || lia). }
  assert (0 ≤ pretarget ≤ r - 2) as Hpre
    by (unfold pretarget; destruct (Z.ltb_spec n0 t); simpl; lia).
  assert (axis_target ≠ axis_source) as Hraw.
  { intros ->. apply Hne. unfold t, pack_target. by rewrite En0. }
  assert (length s = Z.to_nat r) as Hlen by (unfold r, rank; fold s; lia).
  assert (length rest = Z.to_nat (r - 1)) as Hrest
    by (unfold rest; rewrite remove_at_length by lia; lia).
  assert (rest !! Z.to_nat pretarget = Some y) as Hy'.
  { unfold rest, pretarget. rewrite remove_at_delete.
    destruct (Z.ltb_spec n0 t); simpl.
    - rewrite list_lookup_delete_ge by lia. rewrite <- Hy. f_equal. lia.
    - rewrite list_lookup_delete_lt by lia. rewrite <- Hy. f_equal. lia. }
  split; [|split_and!; (done || lia)].
  rewrite (pack_to_axis_at arr axis_source axis_target n0 x); try done.
  - fold r. by rewrite Epre.
  - fold r. by rewrite Epre.
Qed.

(** What the reshape returns on the shape handed over by [pack_to_axis],
    for positive sizes. *)
Lemma pack_reshape_merged (rest : list Z) (pre : nat) (x y : Z) :
  Forall (fun d => 0 < d) rest → 0 < x → rest !! pre = Some y →
  reshape_shape (Array (insert_at pre x rest)) (<[pre := wildcard]> rest)
  = Ok (Array (<[pre := x * y]> rest)).
Proof.
  intros Hpos Hxpos Hy. pose proof (lookup_lt_Some _ _ _ Hy) as Hpre.
  rewrite !insert_take_drop by done.
  apply reshape_shape_infer.
  - by apply Forall_take.
  - by apply Forall_drop.
  - simpl. unfold insert_at. rewrite size_of_app, size_of_cons.
    rewrite <- (take_drop_middle rest pre y Hy) at 1 2.
    rewrite (take_app_length' _ _ pre) by (rewrite length_take; lia).
    rewrite (drop_app_length' _ _ pre) by (rewrite length_take; lia).
    rewrite size_of_cons, size_of_app. lia.
Qed.

Lemma remove_at_Forall {A : Type} (P : A → Prop) (n : nat) (l : list A) :
  Forall P l → Forall P (remove_at n l).
Proof.
  intros H. unfold remove_at. apply Forall_app. split.
  - by apply Forall_take.
  - by apply Forall_drop.
Qed.

(** X11: for a source given as a nonnegative index, or a negative one whose
    axis lies before the target axis, and a target that normalizes to
    another axis, [pack_to_axis] on positive sizes returns the input's
    shape without the source axis, the target axis carrying the product of
    the two sizes; the rank drops by one and the number of elements is
    kept. *)
Theorem pack_to_axis_result (arr : array) (axis_source axis_target n0 x y : Z) :
  let r := rank arr in
  let s := np_tf_get_shape arr in
  let t := pack_target r axis_target in
  let pretarget := Z.to_nat (t - Z.b2z (n0 <? t)) in
  let rest := remove_at (Z.to_nat n0) s in
  - r + 1 ≤ axis_target ≤ r - 1 →
  pidx r axis_source = Ok n0 → t ≠ n0 → 0 ≤ axis_source ∨ n0 < t →
  s !! Z.to_nat n0 = Some x → s !! Z.to_nat t = Some y →
  Forall (fun d => 0 < d) s →
  run (pack_to_axis arr axis_source axis_target)
  = (Ok (Array (<[pretarget := x * y]> rest)),
     [Transpose arr (cyclePerm_spec r n0 (t - Z.b2z (n0 <? t)));
      Reshape (Array (insert_at pretarget x rest)) (<[pretarget := wildcard]> rest)])
  ∧ Z.of_nat (length (<[pretarget := x * y]> rest)) = r - 1
  ∧ size_of (<[pretarget := x * y]> rest) = size_of s.
Proof.
  intros r s t pretarget rest Htarget E0 Hne Hfwd Hx Hy Hpos.
  destruct (pack_to_axis_merge arr axis_source axis_target n0 x y)
    as (Hrun & Hpre & Hrest & Hy'); try done.
  fold r s t rest in Hrun, Hpre, Hrest, Hy'. fold pretarget in Hrun, Hy'.
  assert (0 < x) as Hxpos by (by eapply Forall_lookup_1 in Hx).
  assert (0 < y) as Hypos by (by eapply Forall_lookup_1 in Hy).
  split_and!.
  - rewrite Hrun. unfold lib_reshape. simpl app.
    rewrite (pack_reshape_merged rest pretarget x y); try done.
    by apply remove_at_Forall.
  - rewrite length_insert, Hrest. apply pidx_Ok_inv in E0. fold r in E0. lia.
  - apply (Z.mul_cancel_r _ _ y); [lia|].
    rewrite (size_of_insert _ _ _ _ Hy'), (size_of_split s _ _ Hx).
    fold (remove_at (Z.to_nat n0) s). fold rest. lia.
Qed.

Lemma pack_to_axis_result_witness :
  run (pack_to_axis (Array [2; 3; 5; 7]) (-3) (-1))
  = (Ok (Array [2; 5; 21]),
     [Transpose (Array [2; 3; 5; 7]) [0; 2; 1; 3];
      Reshape (Array [2; 5; 3; 7]) [2; 5; -1]]).
Proof.
  destruct (pack_to_axis_result (Array [2; 3; 5; 7]) (-3) (-1) 1 3 7)
    as (Hrun & _);
    [unfold rank; simpl; lia | reflexivity | unfold rank, pack_target; simpl; lia
    | right; unfold rank, pack_target; simpl; lia | reflexivity | reflexivity
    | repeat constructor; lia |].
  exact Hrun.
Defined.

Lemma pack_target_nonneg (r t : Z) : 0 ≤ t → pack_target r t = t.
Proof. intros Ht. unfold pack_target. by destruct (Z.ltb_spec t 0); [lia|]. Qed.

Lemma pack_raw_distinct (r axis_source axis_target n0 : Z) :
  pidx r axis_source = Ok n0 → pack_target r axis_target ≠ n0 →
  axis_target ≠ axis_source.
Proof.
  intros (_ & _ & _ & En0)%pidx_Ok_inv Hne ->. apply Hne.
  unfold pack_target. by rewrite En0.
Qed.

(** X12: under the conditions of X11, [pack_to_axis] depends on its two
    indices only through their normalizations: the run on the raw indices
    is the run on the normalized source and target. *)
Theorem pack_to_axis_normalized_indices (arr : array) (axis_source axis_target n0 : Z) :
  let r := rank arr in
  let t := pack_target r axis_target in
  - r + 1 ≤ axis_target ≤ r - 1 →
  pidx r axis_source = Ok n0 → t ≠ n0 → 0 ≤ axis_source ∨ n0 < t →
  run (pack_to_axis arr axis_source axis_target) = run (pack_to_axis arr n0 t).
Proof.
  intros r t Htarget E0 Hne Hfwd.
  pose proof E0 as (Hr & _ & Hn0 & _)%pidx_Ok_inv. fold r in Hr, Hn0.
  pose proof (pack_target_in_range r axis_target Htarget) as Ht. fold t in Ht.
  set (s := np_tf_get_shape arr).
  destruct (lookup_lt_is_Some_2 s (Z.to_nat n0)) as [x Hx];
    [unfold r, rank in Hn0; fold s in Hn0; lia|].
  destruct (lookup_lt_is_Some_2 s (Z.to_nat t)) as [y Hy];
    [unfold r, rank in Ht; fold s in Ht; lia|].
  destruct (pack_to_axis_merge arr axis_source axis_target n0 x y)
    as (-> & _); try done.
  assert (pack_target r t = t) as Et by (apply pack_target_nonneg; lia).
  destruct (pack_to_axis_merge arr n0 t n0 x y) as (-> & _);
    fold r; rewrite ?Et; first [done | lia | by apply pidx_nonneg].
Qed.

Lemma pack_to_axis_normalized_indices_witness :
  run (pack_to_axis (Array [2; 3; 5; 7]) (-3) (-1))
  = run (pack_to_axis (Array [2; 3; 5; 7]) 1 3).
Proof.
  apply (pack_to_axis_normalized_indices (Array [2; 3; 5; 7]) (-3) (-1) 1);
    [unfold rank; simpl; lia | reflexivity | unfold rank, pack_target; simpl; lia
    | right; unfold rank, pack_target; simpl; lia].
Defined.

(** X13: a negative source whose axis lies after a target axis [t >= 1] is
    compared as if it lay before it: [pack_to_axis] then runs as on the
    normalized source and the target [t - 1], so the source is merged with
    the axis before the target. *)
Theorem pack_to_axis_negative_source_after (arr : array) (axis_source axis_target n0 : Z) :
  let r := rank arr in
  let t := pack_target r axis_target in
  - r + 1 ≤ axis_target ≤ r - 1 →
  pidx r axis_source = Ok n0 → axis_source < 0 → 1 ≤ t < n0 →
  run (pack_to_axis arr axis_source axis_target)
  = run (pack_to_axis arr n0 (t - 1)).
Proof.
  intros r t Htarget E0 Hneg Ht.
  pose proof E0 as (Hr & _ & Hn0 & _)%pidx_Ok_inv. fold r in Hr, Hn0.
  set (s := np_tf_get_shape arr).
  destruct (lookup_lt_is_Some_2 s (Z.to_nat n0)) as [x Hx];
    [unfold r, rank in Hn0; fold s in Hn0; lia|].
  assert (pack_pretarget r axis_source axis_target = t - 1) as Epre.
  { unfold pack_pretarget. fold t.
    destruct (Z.ltb_spec axis_source t); simpl; lia. }
  assert (pack_pretarget r n0 (t - 1) = t - 1) as Epre'.
  { unfold pack_pretarget. rewrite pack_target_nonneg by lia.
    destruct (Z.ltb_spec n0 (t - 1)); simpl; lia. }
  rewrite (pack_to_axis_at arr axis_source axis_target n0 x); try done.
  - rewrite (pack_to_axis_at arr n0 (t - 1) n0 x); try done.
    + fold r. by rewrite Epre, Epre'.
    + lia.
    + fold r. lia.
    + by apply pidx_nonneg.
    + fold r. rewrite Epre'. lia.
  - apply (pack_raw_distinct r _ _ n0); [done | fold t; lia].
  - fold r. rewrite Epre. lia.
Qed.

Lemma pack_to_axis_negative_source_after_witness :
  run (pack_to_axis (Array [2; 3; 5]) (-1) 1)
  = run (pack_to_axis (Array [2; 3; 5]) 2 0).
Proof.
  apply (pack_to_axis_negative_source_after (Array [2; 3; 5]) (-1) 1 2);
    [unfold rank; simpl; lia | reflexivity | lia
    | unfold rank, pack_target; simpl; lia].
Defined.

Lemma py_insert_length {A : Type} (l : list A) (i : Z) (x : A) :
  length (py_insert l i x) = S (length l).
Proof.
  unfold py_insert. rewrite length_app, length_cons, length_take, length_drop. lia.
Qed.

Lemma py_del_slice_length {A : Type} (l : list A) (lo hi : Z) :
  let a := py_clip (Z.of_nat (length l)) lo in
  let b := py_clip (Z.of_nat (length l)) hi in
  length (py_del_slice l lo hi) = (length l - (b - a))%nat.
Proof.
  intros a b. unfold py_del_slice. fold a b.
  assert (b ≤ length l)%nat as Hb.
  { unfold b, py_clip. destruct (hi <? 0); lia. }
  destruct (Nat.ltb_spec a b).
  - rewrite length_app, length_take, length_drop. lia.
  - lia.
Qed.

(** X14: when the three assertions pass, the shape handed to the reshape
    has rank [r - 1] except in two cases: a negative source with the target
    axis 0, and a source [r - 1] with a target that names the same, last
    axis by its negative index. *)
Theorem pack_to_axis_plan_rank (arr : array) (axis_source axis_target : Z) :
  let r := rank arr in
  let t := pack_target r axis_target in
  - r ≤ axis_source ≤ r - 1 → axis_target ≠ axis_source →
  - r + 1 ≤ axis_target ≤ r - 1 →
  ∃ permuter cycled s_permute,
    snd (run (pack_to_axis arr axis_source axis_target))
    = [Transpose arr permuter; Reshape cycled s_permute] ∧
    (Z.of_nat (length s_permute) = r - 1
     ↔ ¬ (axis_source < 0 ∧ t = 0) ∧ ¬ (axis_source = r - 1 ∧ t = r - 1)).
Proof.
  intros r t Hs Hne Ht. assert (1 ≤ r) as Hr by lia.
  pose proof (pack_target_in_range r axis_target Ht) as Ht'. fold t in Ht'.
  pose proof (pack_pretarget_bounds r axis_source axis_target Ht) as Hpre.
  assert (pack_pretarget r axis_source axis_target = t - Z.b2z (axis_source <? t))
    as Epre by done.
  set (pretarget := pack_pretarget r axis_source axis_target) in *.
  pose proof (pidx_in_range _ _ Hr Hs) as E0.
  assert (- r ≤ pretarget ≤ r - 1) as Hpre' by lia.
  pose proof (pidx_in_range _ _ Hr Hpre') as E1.
  set (n0 := if axis_source <? 0 then r + axis_source else axis_source) in *.
  set (p1 := if pretarget <? 0 then r + pretarget else pretarget) in *.
  assert (0 ≤ n0 ≤ r - 1) as Hn0 by (apply pidx_Ok_inv in E0; lia).
  rewrite (pack_to_axis_steps arr axis_source axis_target n0 p1) by done.
  fold r. fold pretarget. unfold lib_reshape. simpl app. simpl snd.
  eexists _, _, _. split; [reflexivity|].
  set (sp := insert_at _ _ _).
  assert (length sp = Z.to_nat r) as Hsp.
  { unfold sp. rewrite insert_at_length, remove_at_length; unfold r, rank in *; lia. }
  rewrite py_insert_length, py_del_slice_length, Hsp.
  unfold py_clip.
  destruct (Z.ltb_spec axis_source t), (Z.ltb_spec pretarget 0),
    (Z.ltb_spec (pretarget + 2) 0); simpl in Epre; lia.
Qed.

Lemma pack_to_axis_plan_rank_witness :
  ∃ permuter cycled s_permute,
    snd (run (pack_to_axis (Array [2; 3]) (-1) 0))
    = [Transpose (Array [2; 3]) permuter; Reshape cycled s_permute] ∧
    (Z.of_nat (length s_permute) = 2 - 1
     ↔ ¬ (-1 < 0 ∧ pack_target 2 0 = 0) ∧ ¬ (-1 = 2 - 1 ∧ pack_target 2 0 = 2 - 1)).
Proof.
  apply (pack_to_axis_plan_rank (Array [2; 3]) (-1) 0);
    [unfold rank; simpl; lia | lia | unfold rank; simpl; lia].
Defined.

(** ** The wrappers with fixed axes *)

Lemma remove_at_app_middle {A : Type} (pre post : list A) (a : A) :
  remove_at (length pre) (pre ++ a :: post) = pre ++ post.
Proof.
  unfold remove_at. rewrite take_app_length.
  replace (pre ++ a :: post) with ((pre ++ [a]) ++ post) by (by rewrite <- app_assoc).
  by rewrite (drop_app_length' _ _ (S (length pre)))
    by (rewrite length_app; simpl; lia).
Qed.

Lemma insert_at_app_middle {A : Type} (pre post : list A) (a : A) :
  insert_at (length pre) a (pre ++ post) = pre ++ a :: post.
Proof. unfold insert_at. by rewrite take_app_length, drop_app_length. Qed.

Lemma insert_app_middle {A : Type} (pre post : list A) (a v : A) :
  <[length pre := v]> (pre ++ a :: post) = pre ++ v :: post.
Proof.
  replace (length pre) with (length pre + 0)%nat at 1 by lia.
  by rewrite insert_app_r.
Qed.

Lemma rank_cons2 (a b : Z) (l : list Z) : 2 ≤ rank (Array (a :: b :: l)).
Proof. unfold rank. simpl length. lia. Qed.

Lemma rank_snoc2 (pre : list Z) (a b : Z) :
  rank (Array (pre ++ [a; b])) = Z.of_nat (length pre) + 2.
Proof. unfold rank. simpl np_tf_get_shape. rewrite length_app. simpl length. lia. Qed.

(** X15: [frontswap] exchanges the first two sizes, [(A, B, ...)] to
    [(B, A, ...)]; on an array of rank 0 it fails with [InvalidRank] and on
    an array of rank 1 with [IndexOutOfBounds], before any library call. *)
Theorem frontswap_shape :
  (∀ A B rest,
     fst (run (frontswap (Array (A :: B :: rest)))) = Ok (Array (B :: A :: rest))) ∧
  run (frontswap (Array [])) = (Raise InvalidRank, []) ∧
  (∀ A, run (frontswap (Array [A])) = (Raise IndexOutOfBounds, [])).
Proof.
  split_and!; [|done|done].
  intros A B rest. unfold frontswap, run.
  pose proof (rank_cons2 A B rest) as Hr.
  rewrite (swap_axes_normalized _ 0 1 0 1) by (apply pidx_nonneg; lia).
  simpl fst. unfold rank. rewrite swap_gather by (simpl length; lia).
  done.
Qed.

(** X16: [backswap] exchanges the last two sizes, [(..., A, B)] to
    [(..., B, A)]; on an array of rank 0 it fails with [InvalidRank] and on
    an array of rank 1 with [IndexOutOfBounds], before any library call. *)
Theorem backswap_shape :
  (∀ pre A B,
     fst (run (backswap (Array (pre ++ [A; B])))) = Ok (Array (pre ++ [B; A]))) ∧
  run (backswap (Array [])) = (Raise InvalidRank, []) ∧
  (∀ A, run (backswap (Array [A])) = (Raise IndexOutOfBounds, [])).
Proof.
  split_and!; [|done|done].
  intros pre A B. unfold backswap, run.
  pose proof (rank_snoc2 pre A B) as Hr.
  set (n := Z.of_nat (length pre)) in *.
  assert (pidx (rank (Array (pre ++ [A; B]))) (-2) = Ok n) as E0.
  { rewrite pidx_in_range by lia. simpl. f_equal. lia. }
  assert (pidx (rank (Array (pre ++ [A; B]))) (-1) = Ok (n + 1)) as E1.
  { rewrite pidx_in_range by lia. simpl. f_equal. lia. }
  rewrite (swap_axes_normalized _ (-2) (-1) n (n + 1)) by done.
  simpl fst. unfold rank in *. simpl np_tf_get_shape in *.
  rewrite swap_gather by lia. f_equal. f_equal.
  assert ((pre ++ [A; B]) !! length pre = Some A) as HA
    by (by apply list_lookup_middle).
  assert ((pre ++ [A; B]) !! S (length pre) = Some B) as HB.
  { replace (pre ++ [A; B]) with ((pre ++ [A]) ++ [B]) by (by rewrite <- app_assoc).
    apply list_lookup_middle. rewrite length_app. simpl. lia. }
  rewrite (nth_Z_lookup _ n A) by (unfold n; by rewrite Nat2Z.id).
  rewrite (nth_Z_lookup _ (n + 1) B)
    by (replace (Z.to_nat (n + 1)) with (S (length pre)) by lia; done).
  replace (Z.to_nat n) with (length pre) by lia.
  replace (Z.to_nat (n + 1)) with (S (length pre)) by lia.
  rewrite insert_app_middle.
  replace (pre ++ [B; B]) with ((pre ++ [B]) ++ [B]) by (by rewrite <- app_assoc).
  replace (S (length pre)) with (length (pre ++ [B]))
    by (rewrite length_app; simpl; lia).
  rewrite insert_app_middle. by rewrite <- app_assoc.
Qed.

(** X17: [frontpack] merges the first two axes: on positive sizes
    [(A, B, ...)] it transposes by the identity, hands [(wildcard, ...)] to
    the reshape and returns [(A*B, ...)]. *)
Theorem frontpack_shape (A B : Z) (rest : list Z) :
  Forall (fun d => 0 < d) (A :: B :: rest) →
  let arr := Array (A :: B :: rest) in
  run (frontpack arr)
  = (Ok (Array (A * B :: rest)),
     [Transpose arr (seqZ 0 (rank arr)); Reshape arr (wildcard :: rest)]).
Proof.
  intros Hpos arr. unfold frontpack.
  pose proof (rank_cons2 A B rest) as Hr. fold arr in Hr.
  destruct (pack_to_axis_merge arr 0 1 0 A B) as (-> & _);
    rewrite ?pack_target_nonneg by lia;
    first [done | lia | (apply pidx_nonneg; lia) | by left | idtac].
  change (1 - Z.b2z (0 <? 1)) with 0.
  rewrite cyclePerm_spec_same by lia.
  unfold lib_reshape. simpl app. f_equal.
  apply (pack_reshape_merged (B :: rest) 0 A B); [| |done].
  - by inversion Hpos.
  - by inversion Hpos.
Qed.

Lemma frontpack_shape_witness :
  run (frontpack (Array [2; 3; 5]))
  = (Ok (Array [6; 5]),
     [Transpose (Array [2; 3; 5]) [0; 1; 2]; Reshape (Array [2; 3; 5]) [-1; 5]]).
Proof.
  apply (frontpack_shape 2 3 [5]). repeat constructor; lia.
Defined.

(** X18: [backpack] merges the last two axes: on positive sizes
    [(..., A, B)] it transposes by the identity, hands [(..., wildcard)] to
    the reshape and returns [(..., A*B)]. *)
Theorem backpack_shape (pre : list Z) (A B : Z) :
  Forall (fun d => 0 < d) (pre ++ [A; B]) →
  let arr := Array (pre ++ [A; B]) in
  run (backpack arr)
  = (Ok (Array (pre ++ [A * B])),
     [Transpose arr (seqZ 0 (rank arr)); Reshape arr (pre ++ [wildcard])]).
Proof.
  intros Hpos arr. unfold backpack.
  pose proof (rank_snoc2 pre A B) as Hr. fold arr in Hr.
  set (n := Z.of_nat (length pre)) in *.
  assert (pidx (rank arr) (-2) = Ok n) as E0.
  { rewrite pidx_in_range by lia. simpl. f_equal. lia. }
  assert (pack_target (rank arr) (-1) = n + 1) as Et
    by (unfold pack_target; simpl; lia).
  assert ((pre ++ [A; B]) !! length pre = Some A) as HA
    by (by apply list_lookup_middle).
  assert ((pre ++ [A; B]) !! S (length pre) = Some B) as HB.
  { replace (pre ++ [A; B]) with ((pre ++ [A]) ++ [B]) by (by rewrite <- app_assoc).
    apply list_lookup_middle. rewrite length_app. simpl. lia. }
  destruct (pack_to_axis_merge arr (-2) (-1) n A B) as (-> & _);
    rewrite ?Et; try done; try lia.
  - unfold n. by rewrite Nat2Z.id.
  - by replace (Z.to_nat (n + 1)) with (S (length pre)) by lia.
  - replace (n + 1 - Z.b2z (n <? n + 1)) with n
      by (destruct (Z.ltb_spec n (n + 1)); simpl; lia).
    rewrite cyclePerm_spec_same by lia.
    replace (Z.to_nat n) with (length pre) by lia.
    simpl np_tf_get_shape. rewrite remove_at_app_middle.
    unfold lib_reshape. simpl app.
    rewrite insert_at_app_middle, insert_app_middle. f_equal.
    rewrite <- (insert_app_middle pre [] B wildcard), <- (insert_app_middle pre [] B (A * B)).
    apply Forall_app in Hpos as [Hpre HAB].
    rewrite <- (insert_at_app_middle pre [B] A).
    apply pack_reshape_merged.
    + apply Forall_app. split; [done|]. by inversion HAB.
    + by inversion HAB.
    + by apply list_lookup_middle.
Qed.

Lemma backpack_shape_witness :
  run (backpack (Array [2; 3; 5]))
  = (Ok (Array [2; 15]),
     [Transpose (Array [2; 3; 5]) [0; 1; 2]; Reshape (Array [2; 3; 5]) [2; -1]]).
Proof.
  apply (backpack_shape [2] 3 5). repeat constructor; lia.
Defined.

(** ** Programs and the call log *)

Lemma log_extends_pure {A : Type} (m : result A) : log_extends (pure m).
Proof. intros log. unfold pure, run. simpl. by rewrite app_nil_r. Qed.

Lemma log_extends_lib_transpose (arr : array) (perm : list Z) :
  log_extends (lib_transpose arr perm).
Proof. by intros log. Qed.

Lemma log_extends_lib_reshape (arr : array) (newshape : list Z) :
  log_extends (lib_reshape arr newshape).
Proof. by intros log. Qed.

Lemma log_extends_bind {A B : Type} (m : prog A) (f : A → prog B) :
  log_extends m → (∀ a, log_extends (f a)) → log_extends (m ≫= f).
Proof.
  intros Hm Hf log. unfold run, mbind, prog_bind.
  rewrite (Hm log), (Hm []). unfold run.
  destruct (m []) as [[a|e] l]; simpl.
  - rewrite (Hf a (log ++ l)), (Hf a l). simpl. by rewrite app_assoc.
  - done.
Qed.

Ltac log_extends :=
  repeat first
    [ apply log_extends_pure
    | apply log_extends_lib_transpose
    | apply log_extends_lib_reshape
    | apply log_extends_bind; [|intros ?] ].

Lemma log_extends_swap_axes (arr : array) (axis0 axis1 : Z) :
  log_extends (swap_axes arr axis0 axis1).
Proof. unfold swap_axes. log_extends. Qed.

Lemma log_extends_popinsert_axes (arr : array) (axis0 axis1 : Z) :
  log_extends (popinsert_axes arr axis0 axis1).
Proof. unfold popinsert_axes. log_extends. Qed.

Lemma log_extends_pack_to_axis (arr : array) (axis_source axis_target : Z) :
  log_extends (pack_to_axis arr axis_source axis_target).
Proof.
  unfold pack_to_axis. cbv zeta. log_extends.
Qed.

Lemma log_extends_unpack_axis (arr : array) (axis_source axis1_size : Z) :
  log_extends (unpack_axis arr axis_source axis1_size).
Proof. unfold unpack_axis. cbv zeta. log_extends. Qed.

(** Running a sequence of two programs whose first returns. *)
Lemma run_bind_Ok {A B : Type} (m : prog A) (f : A → prog B) (a : A) (l : list call) :
  run m = (Ok a, l) → log_extends (f a) →
  run (m ≫= f) = (fst (run (f a)), l ++ snd (run (f a))).
Proof.
  intros Hm Hf. unfold run in *. unfold mbind, prog_bind. rewrite Hm. apply Hf.
Qed.

(** ** Round trips of packing and unpacking *)

Lemma unpack_axis_run (arr : array) (axis_source inner n size : Z) :
  pidx (rank arr) axis_source = Ok n →
  let s := np_tf_get_shape arr in
  Forall (fun d => 0 < d) (take (Z.to_nat n) s ++ drop (S (Z.to_nat n)) s) →
  0 < inner → s !! Z.to_nat n = Some size → (inner | size) →
  run (unpack_axis arr axis_source inner)
  = (Ok (Array (take (Z.to_nat n) s ++ [size / inner; inner]
                ++ drop (S (Z.to_nat n)) s)),
     [Reshape arr (take (Z.to_nat n) s ++ [wildcard; inner]
                   ++ drop (S (Z.to_nat n)) s)]).
Proof.
  intros E s Hpos Hinner Hsize Hdiv.
  destruct (unpack_axis_result arr axis_source inner n size) as [Hfst _]; try done.
  apply injective_projections; [done|].
  unfold run. by rewrite (unpack_axis_normalized arr axis_source inner n).
Qed.

Lemma pack_to_axis_merged_run (arr : array) (axis_source axis_target n0 x y : Z) :
  let r := rank arr in
  let s := np_tf_get_shape arr in
  let t := pack_target r axis_target in
  let pretarget := t - Z.b2z (n0 <? t) in
  let rest := remove_at (Z.to_nat n0) s in
  - r + 1 ≤ axis_target ≤ r - 1 →
  pidx r axis_source = Ok n0 → t ≠ n0 → 0 ≤ axis_source ∨ n0 < t →
  s !! Z.to_nat n0 = Some x → s !! Z.to_nat t = Some y →
  Forall (fun d => 0 < d) s →
  run (pack_to_axis arr axis_source axis_target)
  = (Ok (Array (<[Z.to_nat pretarget := x * y]> rest)),
     [Transpose arr (cyclePerm_spec r n0 pretarget);
      Reshape (Array (insert_at (Z.to_nat pretarget) x rest))
        (<[Z.to_nat pretarget := wildcard]> rest)])
  ∧ 0 ≤ pretarget ≤ r - 2
  ∧ length rest = Z.to_nat (r - 1)
  ∧ rest !! Z.to_nat pretarget = Some y.
Proof.
  intros r s t pretarget rest Htarget E0 Hne Hfwd Hx Hy Hpos.
  destruct (pack_to_axis_merge arr axis_source axis_target n0 x y)
    as (Hrun & Hpre & Hrest & Hy'); try done.
  split; [|done].
  rewrite Hrun. unfold lib_reshape. simpl app. fold r s t pretarget rest.
  rewrite (pack_reshape_merged rest (Z.to_nat pretarget) x y); try done.
  - by apply remove_at_Forall.
  - by eapply Forall_lookup_1 in Hx.
Qed.

(** X19: packing, then unpacking the merged axis by the size of the target
    axis, gives the shape that moving the source axis next to the target
    gives; moving that axis back then restores the input.  For the indices
    of X11 and positive sizes. *)
Theorem pack_unpack_round_trip (arr : array) (axis_source axis_target n0 x y : Z) :
  let r := rank arr in
  let s := np_tf_get_shape arr in
  let t := pack_target r axis_target in
  let pretarget := t - Z.b2z (n0 <? t) in
  - r + 1 ≤ axis_target ≤ r - 1 →
  pidx r axis_source = Ok n0 → t ≠ n0 → 0 ≤ axis_source ∨ n0 < t →
  s !! Z.to_nat n0 = Some x → s !! Z.to_nat t = Some y →
  Forall (fun d => 0 < d) s →
  fst (run (packed ← pack_to_axis arr axis_source axis_target;
            unpack_axis packed pretarget y))
  = fst (run (popinsert_axes arr axis_source pretarget)) ∧
  fst (run (packed ← pack_to_axis arr axis_source axis_target;
            moved ← unpack_axis packed pretarget y;
            popinsert_axes moved pretarget n0))
  = Ok arr.
Proof.
  intros r s t pretarget Htarget E0 Hne Hfwd Hx Hy Hpos.
  destruct (pack_to_axis_merged_run arr axis_source axis_target n0 x y)
    as (Hpack & Hpre & Hrest & Hy'); try done.
  fold r s t pretarget in Hpack, Hpre, Hrest, Hy'.
  set (rest := remove_at (Z.to_nat n0) s) in *.
  set (pre := Z.to_nat pretarget) in *.
  set (packed := Array (<[pre := x * y]> rest)) in *.
  pose proof E0 as (Hr & _ & Hn0 & _)%pidx_Ok_inv. fold r in Hr, Hn0.
  assert (0 < x) as Hxpos by (by eapply Forall_lookup_1 in Hx).
  assert (0 < y) as Hypos by (by eapply Forall_lookup_1 in Hy).
  assert (Forall (fun d => 0 < d) rest) as Hpos' by (by apply remove_at_Forall).
  assert (pre < length rest)%nat as Hlt by (by eapply lookup_lt_Some).
  assert (rank packed = r - 1) as Hrank
    by (unfold rank, packed; simpl; rewrite length_insert; lia).
  assert (run (unpack_axis packed pretarget y)
          = (Ok (Array (insert_at pre x rest)),
             [Reshape packed (take pre (<[pre := x * y]> rest) ++ [wildcard; y]
                              ++ drop (S pre) (<[pre := x * y]> rest))])) as Hunpack.
  { rewrite (unpack_axis_run packed pretarget y pretarget (x * y)).
    - simpl np_tf_get_shape. fold pre.
      rewrite take_insert_ge, drop_insert_lt, Z.div_mul by lia.
      do 3 f_equal. unfold insert_at. f_equal. simpl. by rewrite <- drop_S.
    - rewrite Hrank. apply pidx_nonneg. lia.
    - simpl np_tf_get_shape. fold pre.
      rewrite take_insert_ge, drop_insert_lt by lia.
      apply Forall_app. split; [by apply Forall_take | by apply Forall_drop].
    - done.
    - simpl np_tf_get_shape. fold pre. by apply list_lookup_insert_eq.
    - by exists x. }
  assert (pidx r pretarget = Ok pretarget) as E1 by (apply pidx_nonneg; lia).
  assert (pre ≤ length rest)%nat as Hle by lia.
  split.
  - rewrite (run_bind_Ok _ _ _ _ Hpack) by apply log_extends_unpack_axis.
    simpl fst. rewrite Hunpack. simpl fst.
    unfold run. rewrite (popinsert_axes_normalized arr axis_source pretarget n0 pretarget)
      by done.
    simpl fst. fold s. by rewrite (nth_Z_lookup _ _ _ Hx).
  - rewrite (run_bind_Ok _ _ _ _ Hpack)
      by (log_extends; apply log_extends_unpack_axis || apply log_extends_popinsert_axes).
    simpl fst.
    rewrite (run_bind_Ok _ _ _ _ Hunpack) by apply log_extends_popinsert_axes.
    simpl fst. unfold run.
    set (moved := Array (insert_at pre x rest)).
    assert (rank moved = r) as Hrank'
      by (unfold rank, moved; simpl; rewrite insert_at_length; lia).
    rewrite (popinsert_axes_normalized moved pretarget n0 pretarget n0)
      by (by rewrite Hrank'; first [done | apply pidx_nonneg]).
    simpl fst. unfold moved. simpl np_tf_get_shape. fold pre.
    rewrite (nth_Z_lookup _ pretarget x) by (by apply insert_at_lookup).
    rewrite remove_at_insert_at by done.
    unfold rest. rewrite insert_at_remove_at by done. by destruct arr.
Qed.

Lemma pack_unpack_round_trip_witness :
  fst (run (packed ← pack_to_axis (Array [2; 3; 5; 7]) 2 0;
            moved ← unpack_axis packed 0 2;
            popinsert_axes moved 0 2))
  = Ok (Array [2; 3; 5; 7]).
Proof.
  destruct (pack_unpack_round_trip (Array [2; 3; 5; 7]) 2 0 2 5 2) as [_ H];
    [unfold rank; simpl; lia | reflexivity | unfold rank, pack_target; simpl; lia
    | left; lia | reflexivity | reflexivity | repeat constructor; lia |].
  exact H.
Defined.

(** X20: unpacking an axis of positive size by a positive size that divides
    it, then packing the outer of the two new axes into the inner one,
    restores the input (all sizes positive). *)
Theorem unpack_pack_round_trip (arr : array) (axis_source inner n size : Z) :
  pidx (rank arr) axis_source = Ok n →
  Forall (fun d => 0 < d) (np_tf_get_shape arr) →
  0 < inner → np_tf_get_shape arr !! Z.to_nat n = Some size → (inner | size) →
  fst (run (unpacked ← unpack_axis arr axis_source inner;
            pack_to_axis unpacked n (n + 1)))
  = Ok arr.
Proof.
  intros E Hpos Hinner Hsize Hdiv.
  set (s := np_tf_get_shape arr) in *.
  pose proof E as (Hr & _ & Hn & _)%pidx_Ok_inv.
  assert (length s = Z.to_nat (rank arr)) as Hlen by (unfold rank; fold s; lia).
  assert (0 < size) as Hsizepos by (by eapply Forall_lookup_1 in Hsize).
  set (q := size / inner).
  assert (size = q * inner) as Eq.
  { destruct Hdiv as [k ->]. unfold q. by rewrite Z.div_mul by lia. }
  assert (0 < q) as Hq by nia.
  set (pre := take (Z.to_nat n) s). set (post := drop (S (Z.to_nat n)) s).
  assert (length pre = Z.to_nat n) as Hpre by (unfold pre; rewrite length_take; lia).
  assert (Forall (fun d => 0 < d) pre) as Hpospre by (by apply Forall_take).
  assert (Forall (fun d => 0 < d) post) as Hpospost by (by apply Forall_drop).
  pose proof (unpack_axis_run arr axis_source inner n size E) as Hunpack.
  fold s pre post q in Hunpack.
  specialize (Hunpack ltac:(by apply Forall_app) Hinner Hsize Hdiv).
  rewrite (run_bind_Ok _ _ _ _ Hunpack) by apply log_extends_pack_to_axis.
  set (unpacked := Array (pre ++ [q; inner] ++ post)).
  change (fst (run (pack_to_axis unpacked n (n + 1))) = Ok arr).
  assert (rank unpacked = rank arr + 1) as Hrank.
  { assert (length post = (length s - S (Z.to_nat n))%nat) as Hpost
      by (unfold post; apply length_drop).
    unfold rank at 1, unpacked. simpl np_tf_get_shape.
    rewrite length_app, length_cons, length_cons. lia. }
  assert (pack_target (rank unpacked) (n + 1) = n + 1) as Et
    by (apply pack_target_nonneg; lia).
  destruct (pack_to_axis_merged_run unpacked n (n + 1) n q inner) as (-> & _);
    rewrite ?Et.
  - lia.
  - apply pidx_nonneg. lia.
  - lia.
  - left. lia.
  - simpl np_tf_get_shape. rewrite <- Hpre. by apply list_lookup_middle.
  - simpl np_tf_get_shape.
    replace (pre ++ q :: inner :: post) with ((pre ++ [q]) ++ inner :: post)
      by (by rewrite <- app_assoc).
    apply (list_lookup_middle (pre ++ [q]) post inner).
    rewrite length_app. simpl. lia.
  - simpl np_tf_get_shape. apply Forall_app. split; [done|].
    constructor; [done|]. by constructor.
  - simpl fst. simpl np_tf_get_shape.
    replace (n + 1 - Z.b2z (n <? n + 1)) with n
      by (destruct (Z.ltb_spec n (n + 1)); simpl; lia).
    rewrite <- Hpre. simpl app.
    rewrite remove_at_app_middle, insert_app_middle, <- Eq.
    unfold pre, post. rewrite take_drop_middle by done. by destruct arr.
Qed.

Lemma unpack_pack_round_trip_witness :
  fst (run (unpacked ← unpack_axis (Array [2; 3; 35; 11]) (-2) 7;
            pack_to_axis unpacked 2 (2 + 1)))
  = Ok (Array [2; 3; 35; 11]).
Proof.
  apply (unpack_pack_round_trip (Array [2; 3; 35; 11]) (-2) 7 2 35);
    [reflexivity | repeat constructor; lia | lia | reflexivity | by exists 5].
Defined.

(** ** unpack_axis: failure *)

Lemma reshape_shape_not_assertion (arr : array) (newshape : list Z) (msg : option string) :
  reshape_shape arr newshape ≠ Raise (AssertionError msg).
Proof.
  unfold reshape_shape.
  repeat match goal with
         | |- context [if ?c then _ else _] => destruct c
         | |- context [match ?n with O => _ | S _ => _ end] => destruct n
         end; done.
Qed.

(** X21: [unpack_axis] fails before the reshape exactly when the array has
    rank 0, with [InvalidRank], or the axis is outside [-r, r-1], with
    [IndexOutOfBounds]; otherwise it makes exactly one call, of the
    reshape, and returns its result.  Its own assertion never fails. *)
Theorem unpack_axis_errors (arr : array) (axis_source axis1_size : Z) :
  let r := rank arr in
  let out := run (unpack_axis arr axis_source axis1_size) in
  (out = (Raise InvalidRank, []) ↔ r < 1) ∧
  (out = (Raise IndexOutOfBounds, []) ↔ 1 ≤ r ∧ ¬ (- r ≤ axis_source ≤ r - 1)) ∧
  ((∃ s_unpack, out = (reshape_shape arr s_unpack, [Reshape arr s_unpack]))
   ↔ 1 ≤ r ∧ - r ≤ axis_source ≤ r - 1) ∧
  (∀ msg, fst out ≠ Raise (AssertionError msg)).
Proof.
  intros r out. unfold out, run.
  destruct (pidx r axis_source) as [n|e] eqn:E.
  - rewrite (unpack_axis_normalized arr axis_source axis1_size n) by done.
    unfold lib_reshape. simpl app.
    apply pidx_Ok_inv in E as (Hr & Hs & _).
    fold r in Hr, Hs. split_and!.
    + naive_solver lia.
    + naive_solver lia.
    + split; [done | intros _; by eexists].
    + intros msg. simpl. apply reshape_shape_not_assertion.
  - assert (unpack_axis arr axis_source axis1_size [] = (Raise e, [])) as ->.
    { unfold unpack_axis, mbind, prog_bind, pure. fold r. by rewrite E. }
    apply pidx_Raise_inv in E as [[Hr ->]|(Hr & Hs & ->)];
      unfold InvalidRank, IndexOutOfBounds; split_and!; naive_solver lia.
Qed.




(** X23: on an array of rank below 2 the two packing wrappers fail with an
    assertion before any library call: [frontpack] on the source range for
    rank 0 and on the target range for rank 1, [backpack] on the source
    range in both cases. *)
Theorem pack_wrappers_small_rank (arr : array) :
  rank arr < 2 →
  run (frontpack arr)
  = (Raise (AssertionError (Some (if rank arr =? 0 then "axis source oob"
                                  else "axis target oob"))), []) ∧
  run (backpack arr) = (Raise (AssertionError (Some "axis source oob")), []).
Proof.
  destruct arr as [[|a [|b l]]]; [done | done |].
  unfold rank. simpl length. lia.
Qed.

Lemma pack_wrappers_small_rank_witness :
  run (frontpack (Array [7]))
  = (Raise (AssertionError (Some "axis target oob")), []) ∧
  run (backpack (Array [7])) = (Raise (AssertionError (Some "axis source oob")), []).
Proof. apply (pack_wrappers_small_rank (Array [7])). unfold rank. simpl. lia. Defined.

(** X24: swapping two axes twice restores the array, for every pair of raw
    axes in [-r, r-1], equal or not. *)
Theorem swap_axes_involution (arr : array) (axis0 axis1 : Z) :
  - rank arr ≤ axis0 ≤ rank arr - 1 → - rank arr ≤ axis1 ≤ rank arr - 1 →
  fst (run (arr' ← swap_axes arr axis0 axis1; swap_axes arr' axis0 axis1)) = Ok arr.
Proof.
  intros H0 H1. assert (1 ≤ rank arr) as Hr by lia.
  pose proof (pidx_in_range _ _ Hr H0) as E0.
  pose proof (pidx_in_range _ _ Hr H1) as E1.
  set (n0 := if axis0 <? 0 then rank arr + axis0 else axis0) in *.
  set (n1 := if axis1 <? 0 then rank arr + axis1 else axis1) in *.
  assert (0 ≤ n0 ≤ rank arr - 1) as Hn0 by (apply pidx_Ok_inv in E0; lia).
  assert (0 ≤ n1 ≤ rank arr - 1) as Hn1 by (apply pidx_Ok_inv in E1; lia).
  unfold run, mbind, prog_bind.
  rewrite (swap_axes_normalized arr axis0 axis1 n0 n1) by done.
  set (arr' := Array _).
  assert (rank arr' = rank arr) as Hrank'.
  { unfold rank, arr'. simpl. rewrite length_fmap, swapPerm_spec_length.
    unfold rank. lia. }
  rewrite (swap_axes_normalized arr' axis0 axis1 n0 n1) by (by rewrite Hrank').
  simpl. rewrite Hrank'. unfold arr'. simpl.
  rewrite swap_twice_shape by done. by destruct arr.
Qed.

Lemma swap_axes_involution_witness :
  fst (run (arr' ← swap_axes (Array [2; 3; 5]) (-1) 0; swap_axes arr' (-1) 0))
  = Ok (Array [2; 3; 5]).
Proof.
  apply (swap_axes_involution (Array [2; 3; 5]) (-1) 0); unfold rank; simpl; lia.
Defined.

(** X25: the cycle builder fails exactly as the normalizer does, with
    [InvalidRank] when [r < 1] and with [IndexOutOfBounds] when [r >= 1]
    and an index is outside [-r, r-1]; the pop and the insert never fail. *)
Theorem get_popinsert_permutation_defined (r idx0 idx1 : Z) :
  ((∃ p, get_popinsert_permutation r idx0 idx1 = Ok p)
   ↔ 1 ≤ r ∧ - r ≤ idx0 ≤ r - 1 ∧ - r ≤ idx1 ≤ r - 1) ∧
  (get_popinsert_permutation r idx0 idx1 = Raise InvalidRank ↔ r < 1) ∧
  (get_popinsert_permutation r idx0 idx1 = Raise IndexOutOfBounds
   ↔ 1 ≤ r ∧ ¬ (- r ≤ idx0 ≤ r - 1 ∧ - r ≤ idx1 ≤ r - 1)).
Proof.
  destruct (pidx r idx0) as [n0|e0] eqn:E0.
  - destruct (pidx r idx1) as [n1|e1] eqn:E1.
    + rewrite (get_popinsert_permutation_normalized _ _ _ _ _ E0 E1).
      apply pidx_Ok_inv in E0 as (Hr & H0 & _).
      apply pidx_Ok_inv in E1 as (_ & H1 & _).
      unfold InvalidRank, IndexOutOfBounds. split_and!; naive_solver lia.
    + assert (get_popinsert_permutation r idx0 idx1 = Raise e1) as ->
        by (unfold get_popinsert_permutation; by rewrite E0, E1).
      apply pidx_Ok_inv in E0 as (Hr & H0 & _).
      apply pidx_Raise_inv in E1 as [[? ->]|(_ & H1 & ->)]; [lia|].
      unfold InvalidRank, IndexOutOfBounds. split_and!; naive_solver lia.
  - assert (get_popinsert_permutation r idx0 idx1 = Raise e0) as ->
      by (unfold get_popinsert_permutation; by rewrite E0).
    apply pidx_Raise_inv in E0 as [[Hr ->]|(Hr & H0 & ->)];
      unfold InvalidRank, IndexOutOfBounds; split_and!; naive_solver lia.
Qed.

(** ** The cycle permutation entry by entry *)

Lemma remove_at_seqZ_lookup (r n0 : Z) (j : nat) :
  0 ≤ n0 ≤ r - 1 → Z.of_nat j < r - 1 →
  remove_at (Z.to_nat n0) (seqZ 0 r) !! j
  = Some (if Z.of_nat j <? n0 then Z.of_nat j else Z.of_nat j + 1).
Proof.
  intros Hn0 Hj. rewrite remove_at_delete.
  destruct (Z.ltb_spec (Z.of_nat j) n0).
  - rewrite list_lookup_delete_lt, lookup_seqZ_lt by lia. done.
  - rewrite list_lookup_delete_ge, lookup_seqZ_lt by lia. f_equal. lia.
Qed.

Lemma cyclePerm_spec_lookup (r n0 n1 : Z) (m : nat) :
  0 ≤ n0 ≤ r - 1 → 0 ≤ n1 ≤ r - 1 → Z.of_nat m < r →
  cyclePerm_spec r n0 n1 !! m = Some (cycle_at n0 n1 (Z.of_nat m)).
Proof.
  intros Hn0 Hn1 Hm. unfold cyclePerm_spec, insert_at.
  set (rest := remove_at (Z.to_nat n0) (seqZ 0 r)).
  assert (length rest = Z.to_nat (r - 1)) as Hrest by (by apply rest_length).
  assert (length (take (Z.to_nat n1) rest) = Z.to_nat n1) as Htake
    by (rewrite length_take; lia).
  destruct (Z.lt_trichotomy (Z.of_nat m) n1) as [Hlt|[Heq|Hgt]].
  - rewrite lookup_app_l, lookup_take_lt by lia.
    unfold rest. rewrite remove_at_seqZ_lookup by lia. f_equal.
    unfold cycle_at.
    destruct (Z.leb_spec n0 n1), (Z.ltb_spec (Z.of_nat m) n0),
      (Z.ltb_spec (Z.of_nat m) n1); lia.
  - rewrite list_lookup_middle by lia. f_equal.
    unfold cycle_at.
    destruct (Z.leb_spec n0 n1), (Z.ltb_spec (Z.of_nat m) n0),
      (Z.ltb_spec (Z.of_nat m) n1), (Z.eqb_spec (Z.of_nat m) n1); lia.
  - rewrite lookup_app_r by lia. rewrite Htake.
    replace (m - Z.to_nat n1)%nat with (S (m - Z.to_nat n1 - 1)) by lia.
    simpl. rewrite lookup_drop.
    unfold rest. rewrite remove_at_seqZ_lookup by lia. f_equal.
    unfold cycle_at.
    destruct (Z.leb_spec n0 n1), (Z.ltb_spec (Z.of_nat m) n0),
      (Z.ltb_spec (Z.of_nat m) n1), (Z.eqb_spec (Z.of_nat m) n1),
      (Z.leb_spec (Z.of_nat m) n0),
      (Z.ltb_spec (Z.of_nat (Z.to_nat n1 + (m - Z.to_nat n1 - 1))) n0); lia.
Qed.

(** X26: entry by entry, the cycle permutation for raw indices that
    normalize to [n0] and [n1] keeps the axes outside the span of the two
    positions, shifts those inside it by one toward the vacated slot, and
    carries [n0] at position [n1]. *)
Theorem get_popinsert_permutation_entries (r idx0 idx1 n0 n1 : Z) :
  pidx r idx0 = Ok n0 → pidx r idx1 = Ok n1 →
  get_popinsert_permutation r idx0 idx1 = Ok (cycle_at n0 n1 <$> seqZ 0 r).
Proof.
  intros E0 E1. rewrite (get_popinsert_permutation_normalized _ _ _ _ _ E0 E1).
  apply pidx_Ok_inv in E0 as (_ & _ & Hn0 & _).
  apply pidx_Ok_inv in E1 as (_ & _ & Hn1 & _).
  f_equal. apply list_eq. intros m. rewrite list_lookup_fmap.
  destruct (decide (Z.of_nat m < r)) as [Hm|Hm].
  - rewrite cyclePerm_spec_lookup, lookup_seqZ_lt by done. done.
  - rewrite lookup_seqZ_ge by lia. apply lookup_ge_None_2.
    rewrite cyclePerm_spec_length by done. lia.
Qed.

Lemma get_popinsert_permutation_entries_witness :
  get_popinsert_permutation 5 (-1) 1 = Ok [0; 4; 1; 2; 3].
Proof.
  apply (get_popinsert_permutation_entries 5 (-1) 1 4 1); reflexivity.
Defined.
